(** * Sequence-event generation of QuickCompareModule

    A shallow embedding of [quick_compare/quick_compare_module.py]
    (methods [generate_sequence_events], [_create_sequence_event],
    [_map_entity], [_enrich_events_with_metadata], [_parse_timestamp]) and
    of the data classes of [data_models.py] it uses, followed by the
    properties of the event generator.

    Conventions of the embedding.
    - A Python [str] is a [string]; a character is the code point it
      denotes, restricted to the range 0..255.
    - A dictionary with string keys is a [gmap string _].
    - An exception is a value of [exn]; a function that can raise returns
      a [result].
    - The calls of the [log_*] methods are recorded, in order, as a list of
      [LogMsg].
    - The system clock is an oracle [now_year]: its k-th value is the
      calendar year [datetime.now().year] shows during the k-th call of
      [_parse_timestamp] of one run. *)

From Stdlib Require Import ZArith Bool List String Ascii Lia Permutation Sorted.
From stdpp Require Import base option list gmap strings pretty.

(** ** Python strings *)

Module PyStr.

Definition ord (c : ascii) : N := N_of_ascii c.

Definition between (lo hi : N) (c : ascii) : bool :=
  ((lo <=? ord c) && (ord c <=? hi))%N.

(** [str.isspace] and the class [\s] of [re] on a [str] pattern:
    TAB..CR, FS..US, SPACE, NEL and NBSP. *)
Definition isspace (c : ascii) : bool :=
  between 9 13 c || between 28 32 c || (ord c =? 133)%N || (ord c =? 160)%N.

(** The class [\d] of [re]: the decimal digits. *)
Definition isdecimal (c : ascii) : bool := between 48 57 c.

(** [str.isalnum]: letters and numeric characters. *)
Definition isalnum (c : ascii) : bool :=
  between 48 57 c || between 65 90 c || between 97 122 c
  || (ord c =? 170)%N || between 178 179 c || (ord c =? 181)%N
  || between 185 186 c || between 188 190 c
  || between 192 214 c || between 216 246 c || between 248 255 c.

(** The class [\w] of [re]: alphanumeric or the underscore. *)
Definition isword (c : ascii) : bool := isalnum c || Ascii.eqb c "_".

(** [s.startswith(p)] *)
Fixpoint startswith (p s : string) : bool :=
  match p, s with
  | EmptyString, _ => true
  | String a p', String b s' => Ascii.eqb a b && startswith p' s'
  | String _ _, EmptyString => false
  end.

(** [sub in s] *)
Fixpoint contains (sub s : string) : bool :=
  startswith sub s ||
  match s with
  | EmptyString => false
  | String _ s' => contains sub s'
  end.

(** [s.replace(old, new)] for a non-empty [old]: the occurrences of [old]
    are found from left to right and do not overlap.  [skip] counts the
    characters of an occurrence that are still to be dropped. *)
Fixpoint replace_from (skip : nat) (old new s : string) : string :=
  match s with
  | EmptyString => EmptyString
  | String c s' =>
      match skip with
      | S k => replace_from k old new s'
      | O =>
          if startswith old s
          then new +:+ replace_from (String.length old - 1) old new s'
          else String c (replace_from 0 old new s')
      end
  end.

Definition replace (old new s : string) : string := replace_from 0 old new s.

(** [s.lstrip()], [s.rstrip()] and [s.strip()] *)
Fixpoint lstrip (s : string) : string :=
  match s with
  | EmptyString => EmptyString
  | String c s' => if isspace c then lstrip s' else s
  end.

Fixpoint rstrip (s : string) : string :=
  match s with
  | EmptyString => EmptyString
  | String c s' =>
      match rstrip s' with
      | EmptyString => if isspace c then EmptyString else String c EmptyString
      | r => String c r
      end
  end.

Definition strip (s : string) : string := rstrip (lstrip s).

(** [re.sub(r'[^\w\s-]', '', s)] *)
Definition kept (c : ascii) : bool := isword c || isspace c || Ascii.eqb c "-".

Fixpoint sub_special (s : string) : string :=
  match s with
  | EmptyString => EmptyString
  | String c s' => if kept c then String c (sub_special s') else sub_special s'
  end.

(** [re.sub(r'\s+', '_', s)]: every maximal run of white space becomes
    one underscore.  [in_run] tells that the previous character was
    white space, already replaced. *)
Fixpoint sub_spaces_from (in_run : bool) (s : string) : string :=
  match s with
  | EmptyString => EmptyString
  | String c s' =>
      if isspace c
      then (if in_run then sub_spaces_from true s'
            else String "_" (sub_spaces_from true s'))
      else String c (sub_spaces_from false s')
  end.

Definition sub_spaces (s : string) : string := sub_spaces_from false s.

(** [s[:n]] *)
Fixpoint slice_to (n : nat) (s : string) : string :=
  match n, s with
  | S k, String c s' => String c (slice_to k s')
  | _, _ => EmptyString
  end.

(** [a <= b] on [str]: lexicographic on code points. *)
Definition le (a b : string) : Prop := String.leb a b = true.

End PyStr.

(** ** Dates: the part of [datetime] that [_parse_timestamp] and the timing
    enrichment use *)

Module DateTime.

Record t := mk {
  year : Z; month : Z; day : Z;
  hour : Z; minute : Z; second : Z; microsecond : Z
}.

Definition is_leap (y : Z) : bool :=
  ((y mod 4 =? 0) && (negb (y mod 100 =? 0) || (y mod 400 =? 0)))%Z.

Definition days_in_month (y m : Z) : Z :=
  if (m =? 2)%Z then (if is_leap y then 29 else 28)%Z
  else if ((m =? 4) || (m =? 6) || (m =? 9) || (m =? 11))%Z then 30%Z
  else 31%Z.

(** Number of days of the year [y] before the first day of month [m]. *)
Definition days_before_month (y m : Z) : Z :=
  fold_right Z.add 0%Z
    (List.map (fun k => days_in_month y (Z.of_nat k)) (seq 1 (Z.to_nat (m - 1)))).

(** Number of days before January 1st of year [y]. *)
Definition days_before_year (y : Z) : Z :=
  let p := (y - 1)%Z in (p * 365 + p / 4 - p / 100 + p / 400)%Z.

Definition toordinal (d : t) : Z :=
  (days_before_year (year d) + days_before_month (year d) (month d) + day d)%Z.

(** The arguments [datetime(...)] accepts; it raises [ValueError] on the
    others. *)
Definition valid (d : t) : bool :=
  ((1 <=? year d) && (year d <=? 9999)
   && (1 <=? month d) && (month d <=? 12)
   && (1 <=? day d) && (day d <=? days_in_month (year d) (month d))
   && (0 <=? hour d) && (hour d <=? 23)
   && (0 <=? minute d) && (minute d <=? 59)
   && (0 <=? second d) && (second d <=? 59)
   && (0 <=? microsecond d) && (microsecond d <=? 999999))%Z.

(** Microseconds since the start of day 0 of the proleptic calendar. *)
Definition to_micros (d : t) : Z :=
  ((((toordinal d * 24 + hour d) * 60 + minute d) * 60 + second d) * 1000000
   + microsecond d)%Z.

(** [a - b], a [timedelta], as its whole number of microseconds;
    [(a - b).total_seconds()] is this number divided by [10**6]. *)
Definition sub_micros (a b : t) : Z := (to_micros a - to_micros b)%Z.

(** *** Reading the fields of a time stamp *)

Definition digit_val (c : ascii) : Z := (Z.of_N (PyStr.ord c) - 48)%Z.

(** Exactly [n] decimal digits, read as a number. *)
Fixpoint digits (n : nat) (acc : Z) (s : string) : option (Z * string) :=
  match n with
  | O => Some (acc, s)
  | S k =>
      match s with
      | String c s' =>
          if PyStr.isdecimal c then digits k (acc * 10 + digit_val c)%Z s'
          else None
      | EmptyString => None
      end
  end.

Definition lit (c : ascii) (s : string) : option string :=
  match s with
  | String a s' => if Ascii.eqb a c then Some s' else None
  | EmptyString => None
  end.

(** [\s+] *)
Definition spaces1 (s : string) : option string :=
  match s with
  | String c s' => if PyStr.isspace c then Some (PyStr.lstrip s') else None
  | EmptyString => None
  end.

Record fields := mk_fields {
  f_month : Z; f_day : Z; f_hour : Z; f_minute : Z; f_second : Z;
  f_millis : Z; f_rest : string
}.

(** [re.match(r'\d{2}-\d{2}\s+\d{2}:\d{2}:\d{2}\.\d{3}', s)]: the pattern
    is matched at the start of [s]; what follows the three digits of the
    fraction is [f_rest]. *)
Definition match_shape (s : string) : option fields :=
  '(mo, s) ← digits 2 0%Z s;
  s ← lit "-" s;
  '(d, s) ← digits 2 0%Z s;
  s ← spaces1 s;
  '(h, s) ← digits 2 0%Z s;
  s ← lit ":" s;
  '(mi, s) ← digits 2 0%Z s;
  s ← lit ":" s;
  '(se, s) ← digits 2 0%Z s;
  s ← lit "." s;
  '(ms, s) ← digits 3 0%Z s;
  Some (mk_fields mo d h mi se ms s).

(** The digits that [%f] reads after the first three: at most three more,
    and nothing may follow them.  The result is the fraction in
    microseconds, the digits being padded with zeros to six. *)
Definition fraction (ms : Z) (rest : string) : option Z :=
  match String.length rest with
  | 0 => Some (ms * 1000)%Z
  | 1 => '(v, _) ← digits 1 ms rest; Some (v * 100)%Z
  | 2 => '(v, _) ← digits 2 ms rest; Some (v * 10)%Z
  | 3 => '(v, _) ← digits 3 ms rest; Some v
  | _ => None
  end.

(** [datetime.strptime(f"{y}-{s}", "%Y-%m-%d %H:%M:%S.%f")] for a string
    [s] of the shape above, whose fields are [f].  [%Y] wants four
    digits; [%m] reads 1..12, [%d] 1..31, [%H] 0..23, [%M] 0..59 and [%S]
    0..61; the constructor of [datetime] then refuses a day the month
    does not have and a second above 59.  [None] stands for the
    [ValueError]. *)
Definition strptime (y : Z) (f : fields) : option t :=
  if negb ((1000 <=? y) && (y <=? 9999))%Z then None
  else if negb ((1 <=? f_month f) && (f_month f <=? 12))%Z then None
  else if negb ((1 <=? f_day f) && (f_day f <=? 31))%Z then None
  else if negb (f_hour f <=? 23)%Z then None
  else if negb (f_minute f <=? 59)%Z then None
  else if negb (f_second f <=? 61)%Z then None
  else
    us ← fraction (f_millis f) (f_rest f);
    let d := mk y (f_month f) (f_day f) (f_hour f) (f_minute f) (f_second f) us in
    if valid d then Some d else None.

End DateTime.

(** ** Exceptions and the log *)

Inductive exn :=
| TypeError   (** [str.replace] called with [None] as the replacement *)
| ReError.    (** [re.error]: the pattern does not compile *)

Inductive result (A : Type) :=
| Ok (a : A)
| Raise (e : exn).
Arguments Ok {A} a.
Arguments Raise {A} e.

(** The calls of [log_info], [log_error] and [log_debug] that the generator
    makes, with the values their messages are formatted from. *)
Inductive LogMsg :=
| Info_generating (entries templates : nat)
| Error_creating (e : exn)
| Debug_no_match (message_start : string)
| Info_generated (events unmatched : nat).

(** A computation that logs and may raise: its outcome and what it logged,
    up to the exception when it raised. *)
Record M (A : Type) := MkM { outcome : result A; logged : list LogMsg }.
Arguments MkM {A} outcome logged.
Arguments outcome {A} m.
Arguments logged {A} m.

Definition M_ret {A} (a : A) : M A := MkM (Ok a) [].

Definition M_bind {A B} (f : A -> M B) (m : M A) : M B :=
  match outcome m with
  | Ok a => MkM (outcome (f a)) (logged m ++ logged (f a))
  | Raise e => MkM (Raise e) (logged m)
  end.

#[global] Instance M_mret : MRet M := @M_ret.
#[global] Instance M_mbind : MBind M := @M_bind.

Definition log (msg : LogMsg) : M unit := MkM (Ok tt) [msg].

Definition result_ret {A} (a : A) : result A := Ok a.

Definition result_bind {A B} (f : A -> result B) (r : result A) : result B :=
  match r with
  | Ok a => f a
  | Raise e => Raise e
  end.

#[global] Instance result_mret : MRet result := @result_ret.
#[global] Instance result_mbind : MBind result := @result_bind.

(** A computation that raises without logging. *)
Definition lift {A} (r : result A) : M A := MkM r [].

(** ** The data classes of [data_models.py] *)

Inductive LogLevel := VERBOSE | DEBUG | INFO | WARNING | ERROR | FATAL.

Definition LogLevel_value (l : LogLevel) : string :=
  match l with
  | VERBOSE => "V" | DEBUG => "D" | INFO => "I"
  | WARNING => "W" | ERROR => "E" | FATAL => "F"
  end.

Module LogEntry.
Record t := mk {
  timestamp : string;
  level : LogLevel;
  tag : string;
  message : string;
  original_line : string;
  line_number : Z
}.
End LogEntry.

Module Template.
Record t := mk {
  name : string;
  pattern : string;
  sequence_mapping : gmap string string;
  priority : Z;
  description : string
}.
End Template.

(** The tuple [match.groups()]: a group that took no part in the match is
    [None]. *)
Abbreviation groups_t := (list (option string)).

(** The values stored in the [metadata] dictionary of an event.  The float
    of [time_since_previous] is kept as the whole number of microseconds it
    is the quotient of. *)
Inductive MetaValue :=
| MStr (s : string)
| MInt (z : Z)
| MGroups (g : groups_t)
| MSeconds (micros : Z).

Module SequenceEvent.
Record t := mk {
  timestamp : string;
  from_entity : string;
  to_entity : string;
  message : string;
  event_type : string;
  metadata : gmap string MetaValue;
  log_entry : option LogEntry.t
}.

(** [event.metadata[k] = v] *)
Definition set_metadata (k : string) (v : MetaValue) (e : t) : t :=
  mk (timestamp e) (from_entity e) (to_entity e) (message e) (event_type e)
     (<[k := v]> (metadata e)) (log_entry e).
End SequenceEvent.

(** ** [sorted(l, key=...)] and [list.sort(key=...)]

    Both are stable; insertion from the right end, each element going in
    front of the first one whose key is not smaller, is the stable sort. *)

Section Sorted.
Context {A K : Type} (leb : K -> K -> bool) (key : A -> K).

Fixpoint insert_by (x : A) (l : list A) : list A :=
  match l with
  | [] => [x]
  | y :: l' =>
      if leb (key x) (key y) then x :: y :: l' else y :: insert_by x l'
  end.

Fixpoint sorted_by (l : list A) : list A :=
  match l with
  | [] => []
  | x :: l' => insert_by x (sorted_by l')
  end.
End Sorted.

(** ** The regular-expression engine

    [re] is a library: the generator is defined over any engine.
    [re_compile] is [None] where [re.compile] raises [re.error];
    [regex_search r s] is [None] where [r.search(s)] is [None], and the
    tuple [groups()] of the match otherwise. *)

Class ReEngine := {
  regex : Type;
  re_compile : string -> option regex;
  regex_search : regex -> string -> option groups_t
}.

(** [re.search(pattern, s)], then [match.groups()] *)
Definition re_search `{ReEngine} (pattern s : string) : result (option groups_t) :=
  match re_compile pattern with
  | Some r => Ok (regex_search r s)
  | None => Raise ReError
  end.

(** ** [QuickCompareModule] *)

Section QuickCompareModule.
Context `{ReEngine}.

(** [str(group)] *)
Definition str_of_group (group : option string) : string :=
  match group with
  | Some s => s
  | None => "None"
  end.

(** [f"{{group{i+1}}}"] *)
Definition placeholder (i : nat) : string :=
  "{group" +:+ pretty (i + 1)%nat +:+ "}".

(** The loop [for i, group in enumerate(groups)] of [_map_entity], from
    index [i] on. *)
Fixpoint replace_groups (i : nat) (groups : groups_t) (result : string) : string :=
  match groups with
  | [] => result
  | group :: rest =>
      let result :=
        if PyStr.contains (placeholder i) result
        then PyStr.replace (placeholder i) (str_of_group group) result
        else result in
      replace_groups (S i) rest result
  end.

(** [groups[k] if len(groups) > k else ""] *)
Definition group_or_empty (groups : groups_t) (k : nat) : option string :=
  match groups !! k with
  | Some group => group
  | None => Some ""
  end.

(** [result.replace(old, new)] where [new] may be [None]: [str.replace]
    checks its arguments before it searches. *)
Definition replace_with (old : string) (new : option string) (s : string) : result string :=
  match new with
  | Some n => Ok (PyStr.replace old n s)
  | None => Raise TypeError
  end.

(** The two substitution passes of [_map_entity]. *)
Definition substitute (mapping : string) (groups : groups_t) : result string :=
  let result := replace_groups 0 groups mapping in
  result ← replace_with "{timestamp}" (group_or_empty groups 0) result;
  result ← replace_with "{level}" (group_or_empty groups 1) result;
  result ← replace_with "{tag}" (group_or_empty groups 2) result;
  replace_with "{message}" (group_or_empty groups 3) result.

(** [result or "Unknown"] *)
Definition or_unknown (s : string) : string :=
  match s with
  | EmptyString => "Unknown"
  | _ => s
  end.

(** The two [re.sub] of [_map_entity]. *)
Definition sanitize (s : string) : string :=
  PyStr.sub_spaces (PyStr.strip (PyStr.sub_special s)).

Definition _map_entity (mapping : string) (groups : groups_t) : result string :=
  match mapping with
  | EmptyString => Ok "Unknown"
  | _ =>
      result ← substitute mapping groups;
      Ok (or_unknown (sanitize result))
  end.

(** [d.get(k, dflt)] *)
Definition get_or (d : gmap string string) (k dflt : string) : string :=
  default dflt (d !! k).

(** The body of the [try] of [_create_sequence_event]. *)
Definition build_event (log_entry : LogEntry.t) (template : Template.t)
    (groups : groups_t) : result SequenceEvent.t :=
  from_entity ← _map_entity (get_or (Template.sequence_mapping template) "from" "Unknown") groups;
  to_entity ← _map_entity (get_or (Template.sequence_mapping template) "to" "Unknown") groups;
  message ← _map_entity (get_or (Template.sequence_mapping template) "message" "Event") groups;
  let metadata : gmap string MetaValue :=
    <["groups" := MGroups groups]>
    (<["log_tag" := MStr (LogEntry.tag log_entry)]>
    (<["log_level" := MStr (LogLevel_value (LogEntry.level log_entry))]>
    (<["template_priority" := MInt (Template.priority template)]>
    (<["template_name" := MStr (Template.name template)]> ∅)))) in
  Ok (SequenceEvent.mk (LogEntry.timestamp log_entry) from_entity to_entity
        message (Template.name template) metadata (Some log_entry)).

(** [None] is the value returned by the [except] branch. *)
Definition _create_sequence_event (log_entry : LogEntry.t) (template : Template.t)
    (groups : groups_t) : M (option SequenceEvent.t) :=
  match build_event log_entry template groups with
  | Ok e => mret (Some e)
  | Raise e => log (Error_creating e);; mret None
  end.

(** The loop over the templates, already sorted, for one log entry: the
    event of the first template that matches and whose event is built. *)
Fixpoint match_templates (log_entry : LogEntry.t) (templates : list Template.t)
    : M (option SequenceEvent.t) :=
  match templates with
  | [] => mret None
  | template :: rest =>
      m ← lift (re_search (Template.pattern template) (LogEntry.message log_entry));
      match m with
      | Some groups =>
          sequence_event ← _create_sequence_event log_entry template groups;
          match sequence_event with
          | Some e => mret (Some e)
          | None => match_templates log_entry rest
          end
      | None => match_templates log_entry rest
      end
  end.

(** [sorted(templates, key=lambda t: t.priority)] *)
Definition by_priority (templates : list Template.t) : list Template.t :=
  sorted_by Z.leb Template.priority templates.

(** The two lists the main loop appends to. *)
Record collected := mk_collected {
  sequence_events : list SequenceEvent.t;
  unmatched_entries : list LogEntry.t
}.

(** One turn of the loop [for log_entry in log_entries]. *)
Definition process_entry (templates : list Template.t) (acc : collected)
    (log_entry : LogEntry.t) : M collected :=
  sequence_event ← match_templates log_entry (by_priority templates);
  match sequence_event with
  | Some e =>
      mret (mk_collected (sequence_events acc ++ [e]) (unmatched_entries acc))
  | None =>
      log (Debug_no_match (PyStr.slice_to 50 (LogEntry.message log_entry)));;
      mret (mk_collected (sequence_events acc) (unmatched_entries acc ++ [log_entry]))
  end.

Fixpoint process_entries (templates : list Template.t) (acc : collected)
    (log_entries : list LogEntry.t) : M collected :=
  match log_entries with
  | [] => mret acc
  | log_entry :: rest =>
      acc ← process_entry templates acc log_entry;
      process_entries templates acc rest
  end.

(** [_parse_timestamp], [year] being what [datetime.now().year] gives
    during the call. *)
Definition _parse_timestamp (year : Z) (timestamp_str : string) : option DateTime.t :=
  match DateTime.match_shape timestamp_str with
  | Some f => DateTime.strptime year f
  | None => None
  end.

(** One turn of the loop [for i in range(1, len(events))]; the two calls
    of [_parse_timestamp] are the calls number [2 * (i - 1)] and
    [2 * (i - 1) + 1] of the run. *)
Definition timing_step (now_year : nat -> Z) (events : list SequenceEvent.t)
    (i : nat) : list SequenceEvent.t :=
  match events !! (i - 1)%nat, events !! i with
  | Some prev, Some curr =>
      let prev_time :=
        _parse_timestamp (now_year (2 * (i - 1))%nat) (SequenceEvent.timestamp prev) in
      let curr_time :=
        _parse_timestamp (now_year (2 * (i - 1) + 1)%nat) (SequenceEvent.timestamp curr) in
      match prev_time, curr_time with
      | Some p, Some c =>
          <[i := SequenceEvent.set_metadata "time_since_previous"
                   (MSeconds (DateTime.sub_micros c p)) curr]> events
      | _, _ => events
      end
  | _, _ => events
  end.

Definition _enrich_events_with_metadata (now_year : nat -> Z)
    (events : list SequenceEvent.t) : list SequenceEvent.t :=
  let events :=
    imap (fun i event =>
            SequenceEvent.set_metadata "sequence_number" (MInt (Z.of_nat i + 1)) event)
         events in
  if (1 <? length events)%nat
  then fold_left (timing_step now_year) (seq 1 (length events - 1)) events
  else events.

Definition generate_sequence_events (now_year : nat -> Z)
    (log_entries : list LogEntry.t) (templates : list Template.t)
    : M (list SequenceEvent.t) :=
  log (Info_generating (length log_entries) (length templates));;
  acc ← process_entries templates (mk_collected [] []) log_entries;
  let sequence_events :=
    sorted_by String.leb SequenceEvent.timestamp (sequence_events acc) in
  let sequence_events := _enrich_events_with_metadata now_year sequence_events in
  log (Info_generated (length sequence_events) (length (unmatched_entries acc)));;
  mret sequence_events.

End QuickCompareModule.

(** ** A reference engine

    An instance of [ReEngine] on a fragment of the syntax of [re]: literal
    characters, [.], groups [( )], alternation [|], the greedy [?] on any
    atom and the greedy [*] and [+] on a single character or [.].  On a
    pattern of the fragment it computes what [re.search(...).groups()]
    does, by backtracking; it rejects every other pattern, so it is to be
    used on the fragment only. *)

Module MiniRe.

Inductive rx :=
| Eps
| Chr (c : ascii)
| Dot
| Seq (a b : rx)
| Alt (a b : rx)
| Star (a : rx)
| Opt (a : rx)
| Group (n : nat) (a : rx).

Definition is_meta (c : ascii) : bool :=
  PyStr.contains (String c EmptyString) "\^$.|?*+()[]{}".

Definition single_char (r : rx) : bool :=
  match r with
  | Chr _ | Dot => true
  | _ => false
  end.

(** The parser.  [n] is the number of groups opened so far; a result is
    the expression, the rest of the pattern and the new number of groups. *)
Fixpoint parse_alt (fuel : nat) (s : string) (n : nat) : option (rx * string * nat) :=
  match fuel with
  | O => None
  | S fuel =>
      '(a, s, n) ← parse_seq fuel s n;
      match s with
      | String "|" s' =>
          '(b, s, n) ← parse_alt fuel s' n;
          Some (Alt a b, s, n)
      | _ => Some (a, s, n)
      end
  end
with parse_seq (fuel : nat) (s : string) (n : nat) : option (rx * string * nat) :=
  match fuel with
  | O => None
  | S fuel =>
      match s with
      | EmptyString | String "|" _ | String ")" _ => Some (Eps, s, n)
      | _ =>
          '(a, s, n) ← parse_item fuel s n;
          '(b, s, n) ← parse_seq fuel s n;
          Some (Seq a b, s, n)
      end
  end
with parse_item (fuel : nat) (s : string) (n : nat) : option (rx * string * nat) :=
  match fuel with
  | O => None
  | S fuel =>
      '(a, s, n) ←
        match s with
        | String "(" s' =>
            if PyStr.startswith "?" s' then None
            else
              '(a, s, n') ← parse_alt fuel s' (S n);
              match s with
              | String ")" s => Some (Group n a, s, n')
              | _ => None
              end
        | String "." s' => Some (Dot, s', n)
        | String c s' => if is_meta c then None else Some (Chr c, s', n)
        | EmptyString => None
        end;
      '(a, s) ←
        match s with
        | String "?" s' => Some (Opt a, s')
        | String "*" s' => if single_char a then Some (Star a, s') else None
        | String "+" s' => if single_char a then Some (Seq a (Star a), s') else None
        | _ => Some (a, s)
        end;
      match s with
      | String "?" _ | String "*" _ | String "+" _ | String "{" _ => None
      | _ => Some (a, s, n)
      end
  end.

Record compiled := mk_compiled { expr : rx; ngroups : nat }.

Definition compile (pattern : string) : option compiled :=
  match parse_alt (4 * String.length pattern + 4) pattern 0 with
  | Some (a, EmptyString, n) => Some (mk_compiled a n)
  | _ => None
  end.

Definition char_matches (r : rx) (c : ascii) : bool :=
  match r with
  | Chr a => Ascii.eqb a c
  | Dot => negb (Ascii.eqb c "010")
  | _ => false
  end.

(** The greedy [*] on a single character: the longest run first. *)
Fixpoint run_star (p : ascii -> bool) (s : string) (c : groups_t)
    (k : string -> groups_t -> option groups_t) : option groups_t :=
  match s with
  | String b s' =>
      if p b then
        match run_star p s' c k with
        | Some r => Some r
        | None => k s c
        end
      else k s c
  | EmptyString => k s c
  end.

(** [s] without its suffix [s']. *)
Definition consumed (s s' : string) : string :=
  PyStr.slice_to (String.length s - String.length s') s.

(** The backtracking matcher, with the continuation [k] for what follows. *)
Fixpoint run (r : rx) (s : string) (c : groups_t)
    (k : string -> groups_t -> option groups_t) : option groups_t :=
  match r with
  | Eps => k s c
  | Chr _ | Dot =>
      match s with
      | String b s' => if char_matches r b then k s' c else None
      | EmptyString => None
      end
  | Seq a b => run a s c (fun s' c' => run b s' c' k)
  | Alt a b =>
      match run a s c k with
      | Some res => Some res
      | None => run b s c k
      end
  | Opt a =>
      match run a s c k with
      | Some res => Some res
      | None => k s c
      end
  | Star a => run_star (char_matches a) s c k
  | Group n a =>
      run a s c (fun s' c' => k s' (<[n := Some (consumed s s')]> c'))
  end.

(** [search]: the match at the leftmost position that has one. *)
Fixpoint search_from (r : compiled) (s : string) : option groups_t :=
  match run (expr r) s (replicate (ngroups r) None) (fun _ c => Some c) with
  | Some c => Some c
  | None =>
      match s with
      | String _ s' => search_from r s'
      | EmptyString => None
      end
  end.

#[global] Instance engine : ReEngine :=
  {| regex := compiled; re_compile := compile; regex_search := search_from |}.

End MiniRe.

(** ** The vocabulary of the properties *)

(** [p] holds of every character of [s]. *)
Fixpoint all_chars (p : ascii -> bool) (s : string) : bool :=
  match s with
  | EmptyString => true
  | String c s' => p c && all_chars p s'
  end.

Definition starts_with_space (s : string) : bool :=
  match s with
  | String c _ => PyStr.isspace c
  | EmptyString => false
  end.

Fixpoint ends_with_space (s : string) : bool :=
  match s with
  | EmptyString => false
  | String c EmptyString => PyStr.isspace c
  | String _ s' => ends_with_space s'
  end.

(** The sanitization of the Entity Mapper, in the words of its
    description. *)
Module Sanitization.

(** Alphanumeric, underscore, white space or hyphen. *)
Definition allowed (c : ascii) : bool :=
  PyStr.isalnum c || Ascii.eqb c "_" || PyStr.isspace c || Ascii.eqb c "-".

(** Alphanumeric, white space or hyphen. *)
Definition allowed_without_underscore (c : ascii) : bool :=
  PyStr.isalnum c || PyStr.isspace c || Ascii.eqb c "-".

(** [s] without the characters that are not [ok]. *)
Fixpoint strip_outside (ok : ascii -> bool) (s : string) : string :=
  match s with
  | EmptyString => EmptyString
  | String c s' =>
      if ok c then String c (strip_outside ok s') else strip_outside ok s'
  end.

(** [t] is [s] without its leading and trailing white space. *)
Definition Trimmed (s t : string) : Prop :=
  exists l r,
    s = l +:+ t +:+ r
    /\ all_chars PyStr.isspace l = true
    /\ all_chars PyStr.isspace r = true
    /\ starts_with_space t = false
    /\ ends_with_space t = false.

(** [r] is [s] with every maximal run of white space replaced by one
    underscore. *)
Inductive Collapsed : string -> string -> Prop :=
| Collapsed_end : Collapsed "" ""
| Collapsed_char c s r :
    PyStr.isspace c = false ->
    Collapsed s r ->
    Collapsed (String c s) (String c r)
| Collapsed_run ws s r :
    ws <> "" ->
    all_chars PyStr.isspace ws = true ->
    starts_with_space s = false ->
    Collapsed s r ->
    Collapsed (ws +:+ s) (String "_" r).

(** No white space, and nothing but letters, digits, underscores and
    hyphens. *)
Definition entity_char (c : ascii) : bool :=
  (PyStr.isalnum c || Ascii.eqb c "_" || Ascii.eqb c "-") && negb (PyStr.isspace c).

Definition valid_entity (s : string) : Prop :=
  s <> "" /\ all_chars entity_char s = true.

End Sanitization.

(** The substitution of the Entity Mapper, in the words of its
    description, on groups that all captured a string. *)
Module Substitution.

(** [{groupN}], [N] counted from 1. *)
Definition group_placeholder (N : nat) : string := "{group" +:+ pretty N +:+ "}".

(** Every [{groupN}] whose group exists is replaced by the value of that
    group, for N = 1, 2, ... in turn. *)
Definition resolve_groups (gs : list string) (mapping : string) : string :=
  foldl (fun s '(N, g) => PyStr.replace (group_placeholder N) g s)
        mapping (zip (seq 1 (length gs)) gs).

(** The value an alias stands for: group [N], or the empty string when
    there is no such group. *)
Definition alias_value (gs : list string) (N : nat) : string :=
  default "" (gs !! (N - 1)%nat).

(** Then the four aliases are replaced. *)
Definition resolve_aliases (gs : list string) (s : string) : string :=
  PyStr.replace "{message}" (alias_value gs 4)
    (PyStr.replace "{tag}" (alias_value gs 3)
      (PyStr.replace "{level}" (alias_value gs 2)
        (PyStr.replace "{timestamp}" (alias_value gs 1) s))).

(** None of the placeholders that [gs] can resolve, and no alias, occurs
    in [s]. *)
Definition nothing_to_resolve (gs : list string) (s : string) : Prop :=
  (forall N, 1 <= N <= length gs -> PyStr.contains (group_placeholder N) s = false)
  /\ PyStr.contains "{timestamp}" s = false
  /\ PyStr.contains "{level}" s = false
  /\ PyStr.contains "{tag}" s = false
  /\ PyStr.contains "{message}" s = false.

End Substitution.

Section Vocabulary.
Context `{ReEngine}.

(** The pattern of [t] is found in the message of [r], with groups [g]. *)
Definition matches (r : LogEntry.t) (t : Template.t) (g : groups_t) : Prop :=
  re_search (Template.pattern t) (LogEntry.message r) = Ok (Some g).

(** The pattern of [t] is not found in the message of [r]. *)
Definition no_match (r : LogEntry.t) (t : Template.t) : Prop :=
  re_search (Template.pattern t) (LogEntry.message r) = Ok None.

(** [t] matches [r] and the event [e] is built from the match. *)
Definition builds (r : LogEntry.t) (t : Template.t) (e : SequenceEvent.t) : Prop :=
  exists g, matches r t g /\ build_event r t g = Ok e.

(** [t] matches [r] and building the event raises. *)
Definition fails_to_build (r : LogEntry.t) (t : Template.t) : Prop :=
  exists g e, matches r t g /\ build_event r t g = Raise e.

(** Every pattern compiles: the precondition on the templates. *)
Definition compilable (templates : list Template.t) : Prop :=
  forall t, t ∈ templates -> is_Some (re_compile (Template.pattern t)).

(** In a stable ascending sort by priority, the template [t] at index [i]
    of the input comes no later than [t'] at index [j]. *)
Definition precedes (i : nat) (t : Template.t) (j : nat) (t' : Template.t) : Prop :=
  (Template.priority t < Template.priority t')%Z
  \/ (Template.priority t = Template.priority t' /\ i <= j).

(** The event the loop over the templates yields for [r], if any. *)
Definition event_of (templates : list Template.t) (r : LogEntry.t)
    : option SequenceEvent.t :=
  match outcome (match_templates r (by_priority templates)) with
  | Ok o => o
  | Raise _ => None
  end.

(** What the enrichment is to store under [time_since_previous] for the
    event [e] at index [i] of the sorted list [events]. *)
Definition timing (now_year : nat -> Z) (events : list SequenceEvent.t)
    (i : nat) (e : SequenceEvent.t) : option MetaValue :=
  match i with
  | O => None
  | S j =>
      prev ← events !! j;
      p ← _parse_timestamp (now_year (2 * j)%nat) (SequenceEvent.timestamp prev);
      c ← _parse_timestamp (now_year (2 * j + 1)%nat) (SequenceEvent.timestamp e);
      Some (MSeconds (DateTime.sub_micros c p))
  end.

(** The event at index [i] once numbered, and once enriched. *)
Definition numbered (i : nat) (e : SequenceEvent.t) : SequenceEvent.t :=
  SequenceEvent.set_metadata "sequence_number" (MInt (Z.of_nat i + 1)) e.

Definition enriched (now_year : nat -> Z) (events : list SequenceEvent.t)
    (i : nat) (e : SequenceEvent.t) : SequenceEvent.t :=
  match timing now_year events i e with
  | Some v => SequenceEvent.set_metadata "time_since_previous" v (numbered i e)
  | None => numbered i e
  end.

(** The list after the turns 1..k of the timing loop. *)
Definition after_turns (now_year : nat -> Z) (events : list SequenceEvent.t)
    (k : nat) : list SequenceEvent.t :=
  imap (fun i e => if decide (i <= k) then enriched now_year events i e
                   else numbered i e) events.

(** [e] without its timing. *)
Definition without_timing (e : SequenceEvent.t) : SequenceEvent.t :=
  SequenceEvent.mk (SequenceEvent.timestamp e) (SequenceEvent.from_entity e)
    (SequenceEvent.to_entity e) (SequenceEvent.message e)
    (SequenceEvent.event_type e)
    (delete "time_since_previous" (SequenceEvent.metadata e))
    (SequenceEvent.log_entry e).

(** *** The claims that depend on a name or on a choice

    Each is stated once, over the name or the choice, so that the code
    can be compared with more than one reading. *)

(** [t], at index [i] of [templates], is the first template in priority
    order, input order breaking ties, that [eligible] holds of. *)
Definition first_among (eligible : Template.t -> Prop)
    (templates : list Template.t) (i : nat) (t : Template.t) : Prop :=
  templates !! i = Some t /\ eligible t
  /\ forall j t', templates !! j = Some t' -> eligible t' -> precedes i t j t'.

(** Every event of a run has the name of the first template that is
    [eligible] for its log entry. *)
Definition selects_first (eligible : LogEntry.t -> Template.t -> Prop)
    (now_year : nat -> Z) (log_entries : list LogEntry.t)
    (templates : list Template.t) : Prop :=
  forall evs e,
    outcome (generate_sequence_events now_year log_entries templates) = Ok evs ->
    e ∈ evs ->
    exists r i t,
      r ∈ log_entries /\ SequenceEvent.log_entry e = Some r
      /\ first_among (eligible r) templates i t
      /\ SequenceEvent.event_type e = Template.name t.

Definition matched (r : LogEntry.t) (t : Template.t) : Prop :=
  exists g, matches r t g.

Definition buildable (r : LogEntry.t) (t : Template.t) : Prop :=
  exists e, builds r t e.

(** The events of a run are numbered from 1, and the timing of each is
    stored under [key], or absent where there is none. *)
Definition enriches_under (key : string) (now_year : nat -> Z)
    (log_entries : list LogEntry.t) (templates : list Template.t) : Prop :=
  forall evs i e,
    outcome (generate_sequence_events now_year log_entries templates) = Ok evs ->
    evs !! i = Some e ->
    SequenceEvent.metadata e !! "sequence_number" = Some (MInt (Z.of_nat i + 1))
    /\ SequenceEvent.metadata e !! key = timing now_year evs i e.

(** [result] is [s] sanitized, the characters that are [ok] being the
    ones that stay. *)
Definition sanitized_keeping (ok : ascii -> bool) (s result : string) : Prop :=
  exists t r,
    Sanitization.Trimmed (Sanitization.strip_outside ok s) t
    /\ Sanitization.Collapsed t r
    /\ result = match r with EmptyString => "Unknown" | _ => r end.

(** The result of the Entity Mapper. *)
Definition maps_entity_keeping (ok : ascii -> bool) (mapping : string)
    (groups : groups_t) : Prop :=
  (mapping = "" -> _map_entity mapping groups = Ok "Unknown")
  /\ (mapping <> "" ->
      forall s, substitute mapping groups = Ok s ->
      exists result,
        _map_entity mapping groups = Ok result /\ sanitized_keeping ok s result).

(** The metadata of every event of a run, the groups being stored under
    [groups_key]. *)
Definition carries_metadata (groups_key : string) (now_year : nat -> Z)
    (log_entries : list LogEntry.t) (templates : list Template.t) : Prop :=
  forall evs e,
    outcome (generate_sequence_events now_year log_entries templates) = Ok evs ->
    e ∈ evs ->
    exists r t g,
      r ∈ log_entries /\ t ∈ templates /\ matches r t g
      /\ SequenceEvent.metadata e !! "template_name" = Some (MStr (Template.name t))
      /\ SequenceEvent.metadata e !! "template_priority"
         = Some (MInt (Template.priority t))
      /\ SequenceEvent.metadata e !! "log_level"
         = Some (MStr (LogLevel_value (LogEntry.level r)))
      /\ SequenceEvent.metadata e !! "log_tag" = Some (MStr (LogEntry.tag r))
      /\ SequenceEvent.metadata e !! groups_key = Some (MGroups g).

(** A log entry for which building an event raised has no event in the
    result. *)
Definition failure_drops_entry (now_year : nat -> Z)
    (log_entries : list LogEntry.t) (templates : list Template.t) : Prop :=
  forall evs r t,
    outcome (generate_sequence_events now_year log_entries templates) = Ok evs ->
    r ∈ log_entries -> t ∈ templates -> fails_to_build r t ->
    forall e, e ∈ evs -> SequenceEvent.log_entry e <> Some r.

(** The result does not depend on the clock. *)
Definition independent_of_clock (log_entries : list LogEntry.t)
    (templates : list Template.t) : Prop :=
  forall now1 now2,
    generate_sequence_events now1 log_entries templates
    = generate_sequence_events now2 log_entries templates.

End Vocabulary.

(** ** Inputs of the examples *)

Module Examples.

Definition template (name pattern : string) (priority : Z)
    (mapping : list (string * string)) : Template.t :=
  Template.mk name pattern (list_to_map mapping) priority "".

Definition entry (timestamp message : string) : LogEntry.t :=
  LogEntry.mk timestamp INFO "CameraService" message message 1.

(** A clock that shows the year [y] all along. *)
Definition in_year (y : Z) : nat -> Z := fun _ => y.

(** The group of [optional_group] takes no part in a match on ["b"]. *)
Definition optional_group : Template.t := template "A" "(a)?b" 1 [].
Definition plain : Template.t := template "B" "b" 2 [].

Definition low : Template.t := template "Low" "x" 5 [].
Definition high : Template.t := template "High" "x" 1 [].
Definition first_any : Template.t := template "A" ".*" 1 [].
Definition second_any : Template.t := template "B" ".*" 1 [].

(** What [f] gives on the events of a run. *)
Definition project {A} (f : SequenceEvent.t -> A) (m : M (list SequenceEvent.t))
    : option (list A) :=
  match outcome m with
  | Ok evs => Some (f <$> evs)
  | Raise _ => None
  end.

Definition unmatchable : Template.t := template "Z" "zzz" 1 [].

Definition one_b : list LogEntry.t := [entry "09-17 10:30:15.000" "b"].

(** The entries of the example P9 of the description, out of order. *)
Definition three_x : list LogEntry.t :=
  [entry "09-17 10:30:16.000" "x"; entry "09-17 10:30:15.000" "x";
   entry "09-17 10:30:15.500" "x"].

(** Two entries on either side of the end of February. *)
Definition around_leap_day : list LogEntry.t :=
  [entry "02-28 10:00:00.000" "x"; entry "03-01 10:00:00.000" "x"].

End Examples.

(** * Properties *)

(** ** The monad *)

Lemma outcome_bind {A B} (m : M A) (f : A -> M B) :
  outcome (m ≫= f) =
  match outcome m with
  | Ok a => outcome (f a)
  | Raise e => Raise e
  end.
Proof. unfold mbind, M_mbind, M_bind. destruct (outcome m); reflexivity. Qed.

Lemma logged_bind {A B} (m : M A) (f : A -> M B) :
  logged (m ≫= f) =
  match outcome m with
  | Ok a => (logged m ++ logged (f a))%list
  | Raise e => logged m
  end.
Proof. unfold mbind, M_mbind, M_bind. destruct (outcome m); reflexivity. Qed.

(** ** The stable sort *)

Section SortedFacts.
Context {A K : Type} (leb : K -> K -> bool) (key : A -> K).
Hypothesis leb_total : forall a b, leb a b = true \/ leb b a = true.
Hypothesis leb_trans : forall a b c, leb a b = true -> leb b c = true -> leb a c = true.

Let le (x y : A) : Prop := leb (key x) (key y) = true.

Lemma insert_by_perm x l : insert_by leb key x l ≡ₚ x :: l.
Proof.
  induction l as [|y l IH]; simpl; [done|].
  destruct (leb (key x) (key y)); [done|].
  rewrite IH. apply Permutation_swap.
Qed.

Lemma sorted_by_perm l : sorted_by leb key l ≡ₚ l.
Proof.
  induction l as [|x l IH]; simpl; [done|].
  by rewrite insert_by_perm, IH.
Qed.

Lemma insert_by_sorted x l :
  StronglySorted le l -> StronglySorted le (insert_by leb key x l).
Proof.
  induction 1 as [|y l Hs IH Hy]; simpl.
  - repeat constructor.
  - destruct (leb (key x) (key y)) eqn:E.
    + constructor; [by constructor|].
      constructor; [exact E|].
      eapply Forall_impl; [exact Hy|]. intros z Hz. unfold le in *. eauto.
    + constructor; [exact IH|].
      rewrite insert_by_perm. constructor; [|exact Hy].
      unfold le. destruct (leb_total (key x) (key y)); congruence.
Qed.

Lemma sorted_by_sorted l : StronglySorted le (sorted_by leb key l).
Proof.
  induction l; simpl; [constructor|]. by apply insert_by_sorted.
Qed.

(** Stability: the elements of one key keep their order. *)
Lemma insert_by_filter `{EqDecision K} k x l :
  filter (fun y => key y = k) (insert_by leb key x l) =
  filter (fun y => key y = k) (x :: l).
Proof.
  induction l as [|y l IH]; simpl; [done|].
  destruct (leb (key x) (key y)) eqn:E; [done|].
  rewrite filter_cons, IH, !filter_cons.
  destruct (decide (key y = k)) as [Hy|Hy], (decide (key x = k)) as [Hx|Hx];
    try done.
  exfalso. rewrite Hx, <- Hy in E.
  destruct (leb_total (key y) (key y)); congruence.
Qed.

Lemma sorted_by_stable `{EqDecision K} k l :
  filter (fun y => key y = k) (sorted_by leb key l) =
  filter (fun y => key y = k) l.
Proof.
  induction l as [|x l IH]; simpl; [done|].
  by rewrite insert_by_filter, !filter_cons, IH.
Qed.

Lemma insert_by_split x l :
  exists p q,
    l = p ++ q /\ insert_by leb key x l = p ++ x :: q
    /\ (forall y, y ∈ p -> leb (key x) (key y) = false)
    /\ (StronglySorted le l -> forall y, y ∈ q -> leb (key x) (key y) = true).
Proof.
  induction l as [|y l (p & q & -> & Hi & Hp & Hq)]; simpl.
  - exists [], []. split; [done|]. split; [done|].
    split; [intros z Hz|intros _ z Hz]; by apply elem_of_nil in Hz.
  - destruct (leb (key x) (key y)) eqn:E.
    + exists [], (y :: p ++ q). split; [done|]. split; [done|].
      split; [intros z Hz; by apply elem_of_nil in Hz|].
      intros Hs z [->|Hz]%elem_of_cons; [done|].
      inversion_clear Hs as [|? ? _ Hall].
      rewrite Forall_forall in Hall. eapply leb_trans; [exact E|].
      by apply Hall.
    + exists (y :: p), q. rewrite Hi. split; [done|]. split; [done|]. split.
      * intros z [->|Hz]%elem_of_cons; auto.
      * intros Hs. inversion_clear Hs. auto.
Qed.

(** The first element with a property [P] in the sorted list has, among
    the elements with [P], the least key, and among those of this key the
    least index in the list that was sorted. *)
Lemma sorted_by_first (P : A -> Prop) l s1 x s2 :
  sorted_by leb key l = s1 ++ x :: s2 ->
  (forall y, y ∈ s1 -> ~ P y) ->
  exists i, l !! i = Some x
    /\ forall j y, l !! j = Some y -> P y ->
        leb (key y) (key x) = false
        \/ (leb (key x) (key y) = true /\ i <= j).
Proof.
  revert s1 x s2. induction l as [|a l IH]; intros s1 x s2 Heq Hs1; simpl in Heq.
  { by destruct s1. }
  destruct (insert_by_split a (sorted_by leb key l)) as (p & q & Hpq & Hi & Hp & Hq).
  specialize (Hq (sorted_by_sorted l)).
  rewrite Hi in Heq. symmetry in Heq.
  apply app_eq_app in Heq as [m [[-> Hm]|[-> Hm]]].
  - destruct m as [|b m]; simplify_eq/=.
    + (* [x] is the inserted element *)
      rewrite app_nil_r in Hs1.
      exists 0. split; [done|]. intros [|j] y Hy HP; simplify_eq/=.
      * right. split; [|lia].
        destruct (leb_total (key y) (key y)); done.
      * right. split; [|lia]. apply Hq.
        assert (y ∈ sorted_by leb key l) as Hin.
        { rewrite sorted_by_perm. by eapply list_elem_of_lookup_2. }
        rewrite Hpq in Hin. apply elem_of_app in Hin as [Hin|Hin]; [|done].
        by destruct (Hs1 y).
    + (* [x] comes after the inserted element, which has not [P] *)
      destruct (IH (p ++ m) x s2) as (i & Hi' & Hmin).
      { by rewrite Hpq, <- app_assoc. }
      { intros y Hy. apply Hs1. rewrite !elem_of_app, elem_of_cons.
        apply elem_of_app in Hy. tauto. }
      exists (S i). split; [done|]. intros [|j] y Hy HP; simplify_eq/=.
      * destruct (Hs1 y); [|done].
        rewrite elem_of_app, elem_of_cons. tauto.
      * destruct (Hmin j y Hy HP) as [?|[? ?]]; [by left|right; split; [done|lia]].
  - (* [x] comes before the inserted element: its key is smaller *)
    destruct m as [|b m]; simplify_eq/=.
    + rewrite app_nil_r in *.
      exists 0. split; [done|]. intros [|j] y Hy HP; simplify_eq/=.
      * right. split; [|lia].
        destruct (leb_total (key y) (key y)); done.
      * right. split; [|lia]. apply Hq.
        assert (y ∈ sorted_by leb key l) as Hin.
        { rewrite sorted_by_perm. by eapply list_elem_of_lookup_2. }
        rewrite Hpq in Hin. apply elem_of_app in Hin as [Hin|Hin]; [|done].
        by destruct (Hs1 y).
    + destruct (IH s1 b (m ++ q)) as (i & Hi' & Hmin).
      { by rewrite Hpq, <- app_assoc. }
      { done. }
      exists (S i). split; [done|]. intros [|j] y Hy HP; simplify_eq/=.
      * left. apply Hp. rewrite elem_of_app, elem_of_cons. tauto.
      * destruct (Hmin j y Hy HP) as [?|[? ?]]; [by left|right; split; [done|lia]].
Qed.

(** The stable sort is unique: whatever algorithm [sorted] and
    [list.sort] run, a sorted list that keeps the order of the elements
    of each key is the one [sorted_by] returns. *)
Hypothesis leb_antisym : forall a b, leb a b = true -> leb b a = true -> a = b.

Lemma sorted_stable_eq `{EqDecision K} l1 l2 :
  StronglySorted le l1 -> StronglySorted le l2 ->
  (forall k, filter (fun y => key y = k) l1 = filter (fun y => key y = k) l2) ->
  l1 = l2.
Proof.
  intros Hs1. revert l2. induction Hs1 as [|x l1 Hs1 IH Hx]; intros l2 Hs2 Hf.
  - destruct l2 as [|y l2]; [done|]. specialize (Hf (key y)).
    rewrite filter_cons_True in Hf by done. done.
  - destruct Hs2 as [|y l2 Hs2 Hy].
    { specialize (Hf (key x)). rewrite filter_cons_True in Hf by done. done. }
    assert (key x = key y) as Hk.
    { apply leb_antisym.
      - assert (y ∈ x :: l1) as [->|Hin]%elem_of_cons.
        { eapply list_elem_of_filter. rewrite (Hf (key y)), filter_cons_True by done.
          left. }
        + match goal with |- leb ?a ?a = true => destruct (leb_total a a); done end.
        + rewrite Forall_forall in Hx. by apply Hx.
      - assert (x ∈ y :: l2) as [->|Hin]%elem_of_cons.
        { eapply list_elem_of_filter. rewrite <- (Hf (key x)), filter_cons_True by done.
          left. }
        + match goal with |- leb ?a ?a = true => destruct (leb_total a a); done end.
        + rewrite Forall_forall in Hy. by apply Hy. }
    pose proof (Hf (key x)) as Hfx.
    rewrite filter_cons_True, (filter_cons_True _ y) in Hfx by done.
    injection Hfx as <- Hfx. f_equal. apply IH; [done|]. intros k.
    destruct (decide (key x = k)) as [<-|Hne]; [done|].
    specialize (Hf k). by rewrite !filter_cons_False in Hf by done.
Qed.

Lemma stable_sort_unique `{EqDecision K} l l' :
  StronglySorted le l' ->
  (forall k, filter (fun y => key y = k) l' = filter (fun y => key y = k) l) ->
  l' = sorted_by leb key l.
Proof.
  intros Hs Hf. apply sorted_stable_eq; [done|apply sorted_by_sorted|].
  intros k. by rewrite Hf, sorted_by_stable.
Qed.
End SortedFacts.

(** ** The loop over the templates *)

Section MatchFacts.
Context `{ReEngine}.

Lemma outcome_create r t g :
  outcome (_create_sequence_event r t g) =
  Ok (match build_event r t g with Ok e => Some e | Raise _ => None end).
Proof. unfold _create_sequence_event. by destruct (build_event r t g). Qed.

Lemma logged_create r t g :
  logged (_create_sequence_event r t g) =
  match build_event r t g with Ok _ => [] | Raise e => [Error_creating e] end.
Proof. unfold _create_sequence_event. by destruct (build_event r t g). Qed.

(** One turn of the loop. *)
Lemma outcome_match_cons r t S :
  outcome (match_templates r (t :: S)) =
  match re_search (Template.pattern t) (LogEntry.message r) with
  | Raise e => Raise e
  | Ok None => outcome (match_templates r S)
  | Ok (Some g) =>
      match build_event r t g with
      | Ok e => Ok (Some e)
      | Raise _ => outcome (match_templates r S)
      end
  end.
Proof.
  simpl. rewrite outcome_bind. unfold lift; simpl.
  destruct (re_search _ _) as [[g|]|e]; [|done..].
  rewrite outcome_bind, outcome_create. by destruct (build_event r t g).
Qed.

Lemma logged_match_cons r t S :
  logged (match_templates r (t :: S)) =
  match re_search (Template.pattern t) (LogEntry.message r) with
  | Raise e => []
  | Ok None => logged (match_templates r S)
  | Ok (Some g) =>
      match build_event r t g with
      | Ok e => []
      | Raise e => Error_creating e :: logged (match_templates r S)
      end
  end.
Proof.
  simpl. rewrite logged_bind. unfold lift; simpl.
  destruct (re_search _ _) as [[g|]|e]; [|done..].
  rewrite logged_bind, outcome_create, logged_create.
  by destruct (build_event r t g).
Qed.

Lemma matches_fun r t g g' : matches r t g -> matches r t g' -> g = g'.
Proof. unfold matches. congruence. Qed.

Lemma match_templates_Some r S e :
  outcome (match_templates r S) = Ok (Some e) ->
  exists s1 x s2, S = s1 ++ x :: s2 /\ builds r x e
    /\ forall y, y ∈ s1 -> ~ exists e', builds r y e'.
Proof.
  induction S as [|t S IH]; [done|]. rewrite outcome_match_cons.
  destruct (re_search _ _) as [[g|]|?] eqn:Hs; [| |done].
  - destruct (build_event r t g) as [e0|?] eqn:Hb.
    + intros [= <-]. exists [], t, S. split; [done|]. split; [by exists g|].
      intros y Hy. by apply elem_of_nil in Hy.
    + intros (s1 & x & s2 & -> & Hx & Hs1)%IH.
      exists (t :: s1), x, s2. split; [done|]. split; [done|].
      intros y [->|Hy]%elem_of_cons; [|by apply Hs1].
      intros (e' & g' & Hm & Hb'). rewrite (matches_fun _ _ _ _ Hm Hs) in Hb'.
      congruence.
  - intros (s1 & x & s2 & -> & Hx & Hs1)%IH.
    exists (t :: s1), x, s2. split; [done|]. split; [done|].
    intros y [->|Hy]%elem_of_cons; [|by apply Hs1].
    intros (e' & g' & Hm & Hb'). unfold matches in Hm. congruence.
Qed.

Lemma match_templates_None r S :
  outcome (match_templates r S) = Ok None ->
  forall y, y ∈ S -> ~ exists e', builds r y e'.
Proof.
  induction S as [|t S IH]; [by intros _ y ?%elem_of_nil|].
  rewrite outcome_match_cons.
  destruct (re_search _ _) as [[g|]|?] eqn:Hs; [| |done].
  - destruct (build_event r t g) as [e0|?] eqn:Hb; [done|].
    intros Hn y [->|Hy]%elem_of_cons; [|by apply IH].
    intros (e' & g' & Hm & Hb'). rewrite (matches_fun _ _ _ _ Hm Hs) in Hb'.
    congruence.
  - intros Hn y [->|Hy]%elem_of_cons; [|by apply IH].
    intros (e' & g' & Hm & Hb'). unfold matches in Hm. congruence.
Qed.

Lemma compilable_search S r t :
  compilable S -> t ∈ S ->
  exists o, re_search (Template.pattern t) (LogEntry.message r) = Ok o.
Proof.
  intros HS Ht. destruct (HS t Ht) as [c Hc]. unfold re_search. rewrite Hc. eauto.
Qed.

Lemma compilable_cons t S : compilable (t :: S) -> compilable S.
Proof. intros HS y Hy. apply HS. by right. Qed.

Lemma compilable_perm S S' : S ≡ₚ S' -> compilable S -> compilable S'.
Proof. intros HP HS t Ht. apply HS. by rewrite HP. Qed.

Lemma match_templates_total r S :
  compilable S -> exists o, outcome (match_templates r S) = Ok o.
Proof.
  induction S as [|t S IH]; intros HS; [by exists None|].
  rewrite outcome_match_cons.
  destruct (compilable_search _ r t HS) as [o ->]; [by left|].
  specialize (IH (compilable_cons _ _ HS)).
  destruct o as [g|]; [|done]. destruct (build_event r t g); eauto.
Qed.

Lemma match_templates_complete r S x e' :
  compilable S -> x ∈ S -> builds r x e' ->
  exists e, outcome (match_templates r S) = Ok (Some e).
Proof.
  intros HS Hx Hb. destruct (match_templates_total r S HS) as [[e|] Ho]; [eauto|].
  destruct (match_templates_None r S Ho x Hx). eauto.
Qed.

(** ** The loop over the log entries *)

Lemma outcome_process_entry ts acc r :
  outcome (process_entry ts acc r) =
  match outcome (match_templates r (by_priority ts)) with
  | Ok (Some e) =>
      Ok (mk_collected (sequence_events acc ++ [e]) (unmatched_entries acc))
  | Ok None =>
      Ok (mk_collected (sequence_events acc) (unmatched_entries acc ++ [r]))
  | Raise e => Raise e
  end.
Proof.
  unfold process_entry. rewrite outcome_bind.
  destruct (outcome (match_templates _ _)) as [[e|]|]; done.
Qed.

Lemma process_entries_cons ts acc r logs :
  process_entries ts acc (r :: logs) =
  process_entry ts acc r ≫= fun acc => process_entries ts acc logs.
Proof. reflexivity. Qed.

Lemma process_entries_outcome ts logs acc c :
  outcome (process_entries ts acc logs) = Ok c ->
  sequence_events c = sequence_events acc ++ omap (event_of ts) logs
  /\ unmatched_entries c =
     unmatched_entries acc ++ filter (fun r => event_of ts r = None) logs.
Proof.
  revert acc. induction logs as [|r logs IH]; intros acc.
  - intros [= <-]. by rewrite !app_nil_r.
  - rewrite process_entries_cons, outcome_bind, outcome_process_entry.
    assert (event_of ts r =
            match outcome (match_templates r (by_priority ts)) with
            | Ok o => o
            | Raise _ => None
            end) as Hev by done.
    rewrite filter_cons.
    destruct (outcome (match_templates _ _)) as [[e|]|]; [| |done].
    + intros [-> ->]%IH; simpl. rewrite Hev, <- app_assoc.
      destruct (decide _); done.
    + intros [-> ->]%IH; simpl. rewrite Hev, <- app_assoc.
      destruct (decide _); done.
Qed.

Lemma process_entries_total ts logs acc :
  compilable ts -> exists c, outcome (process_entries ts acc logs) = Ok c.
Proof.
  intros Hts. revert acc. induction logs as [|r logs IH]; intros acc.
  - by eexists.
  - rewrite process_entries_cons, outcome_bind, outcome_process_entry.
    destruct (match_templates_total r (by_priority ts)) as [o ->].
    { eapply compilable_perm; [|exact Hts]. symmetry.
      apply sorted_by_perm. }
    destruct o; apply IH.
Qed.

Lemma generate_outcome now logs ts evs :
  outcome (generate_sequence_events now logs ts) = Ok evs <->
  exists c, outcome (process_entries ts (mk_collected [] []) logs) = Ok c
    /\ evs = _enrich_events_with_metadata now
               (sorted_by String.leb SequenceEvent.timestamp (sequence_events c)).
Proof.
  unfold generate_sequence_events. rewrite !outcome_bind; simpl.
  destruct (outcome (process_entries _ _ _)) as [c|e].
  - rewrite ?outcome_bind; simpl. split.
    + intros [= <-]. by exists c.
    + intros (c' & [= <-] & ->). done.
  - split; [done|]. by intros (? & ? & _).
Qed.

(** The events of a run: those of the entries, sorted and enriched. *)
Lemma generate_events now logs ts evs :
  outcome (generate_sequence_events now logs ts) = Ok evs ->
  evs = _enrich_events_with_metadata now
          (sorted_by String.leb SequenceEvent.timestamp (omap (event_of ts) logs)).
Proof.
  intros (c & [Hc _]%process_entries_outcome & ->)%generate_outcome.
  by rewrite Hc.
Qed.

Lemma generate_total now logs ts :
  compilable ts -> exists evs, outcome (generate_sequence_events now logs ts) = Ok evs.
Proof.
  intros Hts.
  destruct (process_entries_total ts logs (mk_collected [] []) Hts) as [c Hc].
  eexists. apply generate_outcome. eauto.
Qed.
End MatchFacts.

(** ** The enrichment *)

Section EnrichFacts.
Context `{ReEngine}.
Variable now : nat -> Z.
Local Abbreviation enriched := (enriched now).
Local Abbreviation after_turns := (after_turns now).

Lemma timestamp_enriched events i e :
  SequenceEvent.timestamp (enriched events i e) = SequenceEvent.timestamp e.
Proof. unfold enriched. by destruct (timing _ _ _ _). Qed.

Lemma after_turns_0 events :
  after_turns events 0 =
  imap (fun i event =>
          SequenceEvent.set_metadata "sequence_number" (MInt (Z.of_nat i + 1)) event)
       events.
Proof.
  apply imap_ext. intros i e _. case_decide; [|done].
  by replace i with 0 by lia.
Qed.

Lemma timing_step_after events k :
  S k < length events ->
  timing_step now (after_turns events k) (S k) = after_turns events (S k).
Proof.
  intros Hk. unfold timing_step.
  replace (S k - 1) with k by lia.
  destruct (lookup_lt_is_Some_2 events k) as [prev Hprev]; [lia|].
  destruct (lookup_lt_is_Some_2 events (S k)) as [curr Hcurr]; [lia|].
  unfold after_turns at 1 2. rewrite !list_lookup_imap, Hprev, Hcurr; simpl.
  rewrite decide_True by lia. rewrite decide_False by lia.
  rewrite timestamp_enriched. change (SequenceEvent.timestamp (numbered (S k) curr))
    with (SequenceEvent.timestamp curr).
  fold (after_turns events k).
  transitivity
    (match timing now events (S k) curr with
     | Some v =>
         <[S k := SequenceEvent.set_metadata "time_since_previous" v
                    (numbered (S k) curr)]> (after_turns events k)
     | None => after_turns events k
     end).
  { unfold timing. rewrite Hprev; simpl.
    destruct (_parse_timestamp _ _); [|done]. by destruct (_parse_timestamp _ _). }
  apply list_eq. intros i. unfold after_turns.
  destruct (timing now events (S k) curr) as [v|] eqn:Ht.
  - destruct (decide (i = S k)) as [->|Hi].
    + rewrite list_lookup_insert_eq by (by rewrite length_imap).
      rewrite list_lookup_imap, Hcurr; simpl. rewrite decide_True by lia.
      unfold enriched. by rewrite Ht.
    + rewrite list_lookup_insert_ne by done. rewrite !list_lookup_imap.
      destruct (events !! i); [simpl|done].
      do 2 case_decide; try done; lia.
  - rewrite !list_lookup_imap. destruct (events !! i) as [e|] eqn:He; [simpl|done].
    do 2 case_decide; try done; try lia.
    assert (i = S k) as -> by lia. simplify_eq. unfold enriched. by rewrite Ht.
Qed.

Lemma timing_loop events k :
  k < length events ->
  fold_left (timing_step now) (seq 1 k) (after_turns events 0) = after_turns events k.
Proof.
  induction k as [|k IH]; intros Hk; [done|].
  rewrite seq_S, fold_left_app; simpl. rewrite IH by lia.
  by apply timing_step_after.
Qed.

Lemma enrich_imap events :
  _enrich_events_with_metadata now events = imap (enriched events) events.
Proof.
  unfold _enrich_events_with_metadata. rewrite <- after_turns_0.
  assert (length (after_turns events 0) = length events) as ->
    by apply length_imap.
  destruct (1 <? length events) eqn:Hl.
  - apply Nat.ltb_lt in Hl. rewrite timing_loop by lia.
    apply imap_ext. intros i e Hi%lookup_lt_Some. rewrite decide_True by lia. done.
  - apply Nat.ltb_ge in Hl. apply imap_ext. intros i e Hi%lookup_lt_Some.
    rewrite decide_True by lia. done.
Qed.

Lemma enrich_lookup events i :
  _enrich_events_with_metadata now events !! i = enriched events i <$> events !! i.
Proof. by rewrite enrich_imap, list_lookup_imap. Qed.

Lemma enrich_length events :
  length (_enrich_events_with_metadata now events) = length events.
Proof. by rewrite enrich_imap, length_imap. Qed.
End EnrichFacts.

(** ** Strings *)

Lemma ascii_compare_refl c : Ascii.compare c c = Eq.
Proof. unfold Ascii.compare. apply N.compare_refl. Qed.

Lemma ascii_compare_Lt_trans a b c :
  Ascii.compare a b = Lt -> Ascii.compare b c = Lt -> Ascii.compare a c = Lt.
Proof.
  unfold Ascii.compare. rewrite !N.compare_lt_iff. apply N.lt_trans.
Qed.

Lemma string_leb_refl a : String.leb a a = true.
Proof.
  unfold String.leb. induction a as [|x a IH]; simpl; [done|].
  by rewrite ascii_compare_refl.
Qed.

Lemma string_leb_trans a b c :
  String.leb a b = true -> String.leb b c = true -> String.leb a c = true.
Proof.
  unfold String.leb. revert b c.
  induction a as [|x a IH]; intros [|y b] [|z c]; simpl; try done.
  destruct (Ascii.compare x y) eqn:Hxy, (Ascii.compare y z) eqn:Hyz; try done.
  - apply Ascii.compare_eq_iff in Hxy as ->. rewrite Hyz. apply IH.
  - apply Ascii.compare_eq_iff in Hxy as ->. by rewrite Hyz.
  - apply Ascii.compare_eq_iff in Hyz as <-. by rewrite Hxy.
  - by rewrite (ascii_compare_Lt_trans _ _ _ Hxy Hyz).
Qed.

Lemma append_cons c s t : String c s +:+ t = String c (s +:+ t).
Proof. reflexivity. Qed.

Lemma append_empty_l s : "" +:+ s = s.
Proof. reflexivity. Qed.

(** [simpl] leaves [+:+] alone. *)
Ltac str_simpl :=
  repeat first [rewrite append_cons | rewrite append_empty_l | progress simpl].
Tactic Notation "str_simpl" "in" hyp(H) :=
  repeat first [rewrite append_cons in H | rewrite append_empty_l in H
               | progress simpl in H].

Lemma append_nil_r s : s +:+ "" = s.
Proof. induction s; str_simpl; congruence. Qed.

Lemma append_assoc a b c : (a +:+ b) +:+ c = a +:+ b +:+ c.
Proof. induction a; str_simpl; congruence. Qed.

Lemma all_chars_app p a b :
  all_chars p (a +:+ b) = all_chars p a && all_chars p b.
Proof. induction a as [|c a IH]; str_simpl; [done|]. by rewrite IH, andb_assoc. Qed.

Lemma all_chars_impl (p q : ascii -> bool) s :
  (forall c, p c = true -> q c = true) ->
  all_chars p s = true -> all_chars q s = true.
Proof.
  intros Hpq. induction s as [|c s IH]; simpl; [done|].
  intros [Hc Hs]%andb_true_iff. by rewrite (Hpq c Hc), IH.
Qed.

(** *** [strip] *)

Lemma lstrip_all_space s : all_chars PyStr.isspace s = true -> PyStr.lstrip s = "".
Proof.
  induction s as [|c s IH]; simpl; [done|].
  intros [-> Hs]%andb_true_iff. auto.
Qed.

Lemma lstrip_app_space l s :
  all_chars PyStr.isspace l = true -> PyStr.lstrip (l +:+ s) = PyStr.lstrip s.
Proof.
  induction l as [|c l IH]; str_simpl; [done|].
  intros [-> Hs]%andb_true_iff. auto.
Qed.

Lemma lstrip_id s : starts_with_space s = false -> PyStr.lstrip s = s.
Proof. destruct s as [|c s]; simpl; [done|]. by intros ->. Qed.

Lemma lstrip_spec s :
  exists l, s = l +:+ PyStr.lstrip s
    /\ all_chars PyStr.isspace l = true
    /\ starts_with_space (PyStr.lstrip s) = false.
Proof.
  induction s as [|c s (l & Hl & Hws & Hst)]; str_simpl.
  - by exists "".
  - destruct (PyStr.isspace c) eqn:Hc.
    + exists (String c l). str_simpl. rewrite Hc, Hws, <- Hl. done.
    + exists "". str_simpl. by rewrite Hc.
Qed.

Lemma rstrip_all_space s : all_chars PyStr.isspace s = true -> PyStr.rstrip s = "".
Proof.
  induction s as [|c s IH]; simpl; [done|].
  intros [-> Hs]%andb_true_iff. by rewrite IH.
Qed.

Lemma rstrip_app_space t r :
  all_chars PyStr.isspace r = true -> PyStr.rstrip (t +:+ r) = PyStr.rstrip t.
Proof.
  intros Hr. induction t as [|c t IH]; str_simpl.
  - by apply rstrip_all_space.
  - by rewrite IH.
Qed.

Lemma rstrip_id t : ends_with_space t = false -> PyStr.rstrip t = t.
Proof.
  induction t as [|c t IH]; [done|]. destruct t as [|d t].
  - simpl. by intros ->.
  - intros Ht. change (PyStr.rstrip (String c (String d t)))
      with (match PyStr.rstrip (String d t) with
            | "" => if PyStr.isspace c then "" else String c ""
            | r => String c r
            end).
    by rewrite IH.
Qed.

Lemma rstrip_spec s :
  exists r, s = PyStr.rstrip s +:+ r
    /\ all_chars PyStr.isspace r = true
    /\ ends_with_space (PyStr.rstrip s) = false.
Proof.
  induction s as [|c s (r & Hr & Hws & Hend)]; str_simpl.
  - by exists "".
  - destruct (PyStr.rstrip s) as [|d t] eqn:Hrs.
    + str_simpl in Hr. subst r. destruct (PyStr.isspace c) eqn:Hc.
      * exists (String c s). str_simpl. by rewrite Hc, Hws.
      * exists s. str_simpl. by rewrite Hc.
    + exists r. split; [by rewrite Hr at 1|]. done.
Qed.

Lemma rstrip_starts s :
  starts_with_space s = false -> starts_with_space (PyStr.rstrip s) = false.
Proof.
  destruct s as [|c s]; simpl; [done|]. intros Hc.
  destruct (PyStr.rstrip s); simpl; [|done]. by rewrite Hc.
Qed.

Import Sanitization.

Lemma strip_Trimmed s : Trimmed s (PyStr.strip s).
Proof.
  unfold PyStr.strip.
  destruct (lstrip_spec s) as (l & Hl & Hlws & Hst).
  destruct (rstrip_spec (PyStr.lstrip s)) as (r & Hr & Hrws & Hend).
  exists l, r. split; [by rewrite <- Hr|]. auto using rstrip_starts.
Qed.

Lemma Trimmed_strip s t : Trimmed s t -> t = PyStr.strip s.
Proof.
  intros (l & r & -> & Hl & Hr & Hst & Hend). unfold PyStr.strip.
  rewrite lstrip_app_space by done. destruct t as [|c t].
  - simpl. by rewrite lstrip_all_space.
  - rewrite lstrip_id by done. rewrite rstrip_app_space by done.
    by rewrite rstrip_id.
Qed.

(** *** [sub_spaces] *)

Lemma sub_spaces_run ws s :
  all_chars PyStr.isspace ws = true -> starts_with_space s = false ->
  PyStr.sub_spaces_from true (ws +:+ s) = PyStr.sub_spaces s.
Proof.
  intros Hws Hs. induction ws as [|c ws IH]; str_simpl.
  - destruct s as [|c s]; [done|]. str_simpl in Hs. unfold PyStr.sub_spaces; str_simpl.
    by rewrite Hs.
  - str_simpl in Hws. apply andb_true_iff in Hws as [-> Hws]. auto.
Qed.

Lemma Collapsed_sub_spaces t r : Collapsed t r -> r = PyStr.sub_spaces t.
Proof.
  induction 1 as [|c s r Hc _ ->|ws s r Hne Hws Hs _ ->].
  - done.
  - unfold PyStr.sub_spaces; str_simpl. by rewrite Hc.
  - destruct ws as [|c ws]; [done|]. str_simpl in Hws.
    apply andb_true_iff in Hws as [Hc Hws].
    unfold PyStr.sub_spaces at 2; str_simpl. rewrite Hc.
    by rewrite sub_spaces_run.
Qed.

Lemma lstrip_length s : String.length (PyStr.lstrip s) <= String.length s.
Proof. induction s as [|c s IH]; simpl; [done|]. destruct (PyStr.isspace c); simpl; lia. Qed.

Lemma sub_spaces_Collapsed t : Collapsed t (PyStr.sub_spaces t).
Proof.
  remember (String.length t) as n eqn:Hn. revert t Hn.
  induction n as [n IH] using lt_wf_ind. intros [|c t] Hn.
  - constructor.
  - str_simpl in Hn. destruct (PyStr.isspace c) eqn:Hc.
    + destruct (lstrip_spec t) as (l & Hl & Hws & Hst).
      assert (String c t = String c l +:+ PyStr.lstrip t) as Heq
        by (str_simpl; congruence).
      assert (PyStr.sub_spaces (String c t)
              = String "_" (PyStr.sub_spaces (PyStr.lstrip t))) as ->.
      { unfold PyStr.sub_spaces at 1; str_simpl. rewrite Hc. f_equal.
        rewrite Hl at 1. by apply sub_spaces_run. }
      rewrite Heq. apply Collapsed_run; [done|by str_simpl; rewrite Hc|done|].
      eapply IH; [|done]. pose proof (lstrip_length t). lia.
    + assert (PyStr.sub_spaces (String c t) = String c (PyStr.sub_spaces t)) as ->.
      { unfold PyStr.sub_spaces; str_simpl. by rewrite Hc. }
      constructor; [done|]. eapply IH; [|done]. lia.
Qed.

(** *** The characters that survive *)

Lemma kept_allowed c : PyStr.kept c = allowed c.
Proof. unfold PyStr.kept, PyStr.isword, allowed. by rewrite <- !orb_assoc. Qed.

Lemma sub_special_strip_outside s : PyStr.sub_special s = strip_outside allowed s.
Proof.
  induction s as [|c s IH]; simpl; [done|]. by rewrite kept_allowed, IH.
Qed.

Lemma sub_special_kept s : all_chars PyStr.kept (PyStr.sub_special s) = true.
Proof.
  induction s as [|c s IH]; simpl; [done|].
  destruct (PyStr.kept c) eqn:Hc; simpl; [by rewrite Hc|done].
Qed.

Lemma lstrip_all p s : all_chars p s = true -> all_chars p (PyStr.lstrip s) = true.
Proof.
  induction s as [|c s IH]; simpl; [done|].
  intros [Hc Hs]%andb_true_iff. destruct (PyStr.isspace c); simpl; [auto|].
  by rewrite Hc, Hs.
Qed.

Lemma rstrip_all p s : all_chars p s = true -> all_chars p (PyStr.rstrip s) = true.
Proof.
  induction s as [|c s IH]; simpl; [done|].
  intros [Hc Hs]%andb_true_iff. specialize (IH Hs).
  destruct (PyStr.rstrip s); simpl in *.
  - destruct (PyStr.isspace c); simpl; [done|]. by rewrite Hc.
  - by rewrite Hc, IH.
Qed.

Lemma kept_entity_char c :
  PyStr.kept c = true -> PyStr.isspace c = false -> entity_char c = true.
Proof.
  unfold PyStr.kept, PyStr.isword, entity_char.
  by destruct (PyStr.isalnum c), (Ascii.eqb c "_"), (Ascii.eqb c "-"), (PyStr.isspace c).
Qed.

Lemma sub_spaces_from_entity b s :
  all_chars PyStr.kept s = true ->
  all_chars entity_char (PyStr.sub_spaces_from b s) = true.
Proof.
  revert b. induction s as [|c s IH]; intros b; simpl; [done|].
  intros [Hc Hs]%andb_true_iff. destruct (PyStr.isspace c) eqn:Hsp.
  - destruct b; simpl; auto.
  - simpl. by rewrite kept_entity_char, IH.
Qed.

(** ** The substitution *)

Lemma replace_absent old new s :
  PyStr.contains old s = false -> PyStr.replace old new s = s.
Proof.
  unfold PyStr.replace. induction s as [|c s IH]; [done|].
  intros [Hst Hc]%orb_false_iff. simpl. simpl in Hst. rewrite Hst.
  by rewrite IH.
Qed.

Section SubstituteFacts.
Context `{ReEngine}.
Import Substitution.

Lemma placeholder_group i : placeholder i = group_placeholder (S i).
Proof. unfold placeholder, group_placeholder. by rewrite Nat.add_1_r. Qed.

(** The test [placeholder in result] changes nothing. *)
Lemma replace_groups_resolve i gs m :
  replace_groups i (Some <$> gs) m =
  foldl (fun s '(N, g) => PyStr.replace (group_placeholder N) g s)
        m (zip (seq (S i) (length gs)) gs).
Proof.
  revert i m. induction gs as [|g gs IH]; intros i m; [done|].
  simpl. rewrite IH, placeholder_group. f_equal.
  destruct (PyStr.contains _ _) eqn:Hc; [done|]. by rewrite replace_absent.
Qed.

Lemma group_or_empty_alias gs k :
  group_or_empty (Some <$> gs) k = Some (alias_value gs (S k)).
Proof.
  unfold group_or_empty, alias_value. rewrite list_lookup_fmap.
  replace (S k - 1) with k by lia. by destruct (gs !! k).
Qed.

Lemma substitute_resolve mapping gs :
  substitute mapping (Some <$> gs) =
  Ok (resolve_aliases gs (resolve_groups gs mapping)).
Proof.
  unfold substitute. rewrite !group_or_empty_alias, replace_groups_resolve.
  reflexivity.
Qed.

Lemma resolve_from_nothing gs i m :
  (forall N, i <= N < i + length gs -> PyStr.contains (group_placeholder N) m = false) ->
  foldl (fun s '(N, g) => PyStr.replace (group_placeholder N) g s)
        m (zip (seq i (length gs)) gs) = m.
Proof.
  revert i. induction gs as [|g gs IH]; intros i Hm; [done|]. simpl.
  rewrite replace_absent by (apply Hm; simpl; lia).
  apply IH. intros N HN. apply Hm. simpl. lia.
Qed.

Lemma resolve_groups_nothing gs m :
  (forall N, 1 <= N <= length gs -> PyStr.contains (group_placeholder N) m = false) ->
  resolve_groups gs m = m.
Proof. intros Hm. apply resolve_from_nothing. intros N HN. apply Hm. lia. Qed.

Lemma substitute_nothing mapping gs :
  nothing_to_resolve gs mapping -> substitute mapping (Some <$> gs) = Ok mapping.
Proof.
  intros (Hg & H1 & H2 & H3 & H4). rewrite substitute_resolve.
  rewrite resolve_groups_nothing by done. unfold resolve_aliases.
  by rewrite (replace_absent _ _ _ H1), (replace_absent _ _ _ H2),
    (replace_absent _ _ _ H3), (replace_absent _ _ _ H4).
Qed.
End SubstituteFacts.

(** ** The events of a run *)

Lemma Z_leb_total a b : (a <=? b)%Z = true \/ (b <=? a)%Z = true.
Proof. rewrite !Z.leb_le. lia. Qed.

Lemma Z_leb_trans a b c :
  (a <=? b)%Z = true -> (b <=? c)%Z = true -> (a <=? c)%Z = true.
Proof. rewrite !Z.leb_le. lia. Qed.

Section EventFacts.
Context `{ReEngine}.

Lemma map_entity_Ok mapping groups s :
  _map_entity mapping groups = Ok s ->
  s = "Unknown" \/ exists u, s = or_unknown (sanitize u).
Proof.
  unfold _map_entity. destruct mapping; [intros [= <-]; by left|].
  destruct (substitute _ _) as [u|]; [|done]. intros [= <-]. eauto.
Qed.

(** What [build_event] puts in the event. *)
Lemma build_event_Ok r t g e :
  build_event r t g = Ok e ->
  SequenceEvent.timestamp e = LogEntry.timestamp r
  /\ SequenceEvent.event_type e = Template.name t
  /\ SequenceEvent.log_entry e = Some r
  /\ _map_entity (get_or (Template.sequence_mapping t) "from" "Unknown") g
     = Ok (SequenceEvent.from_entity e)
  /\ _map_entity (get_or (Template.sequence_mapping t) "to" "Unknown") g
     = Ok (SequenceEvent.to_entity e)
  /\ _map_entity (get_or (Template.sequence_mapping t) "message" "Event") g
     = Ok (SequenceEvent.message e)
  /\ SequenceEvent.metadata e =
     <["groups" := MGroups g]>
     (<["log_tag" := MStr (LogEntry.tag r)]>
     (<["log_level" := MStr (LogLevel_value (LogEntry.level r))]>
     (<["template_priority" := MInt (Template.priority t)]>
     (<["template_name" := MStr (Template.name t)]> ∅)))).
Proof.
  unfold build_event.
  destruct (_map_entity (get_or _ "from" _) g) as [a|]; [|done].
  destruct (_map_entity (get_or _ "to" _) g) as [b|]; [|done].
  destruct (_map_entity (get_or _ "message" _) g) as [c|]; [|done].
  intros [= <-]. done.
Qed.

Lemma event_of_Some ts r e0 :
  event_of ts r = Some e0 ->
  exists i t, first_among (buildable r) ts i t /\ builds r t e0.
Proof.
  unfold event_of.
  destruct (outcome (match_templates r (by_priority ts))) as [[e|]|] eqn:Ho;
    [|done..].
  intros [= ->].
  apply match_templates_Some in Ho as (s1 & x & s2 & Hs & Hx & Hs1).
  destruct (sorted_by_first Z.leb Template.priority Z_leb_total Z_leb_trans
              (buildable r) ts s1 x s2 Hs Hs1) as (i & Hi & Hmin).
  exists i, x. split; [|done]. split; [done|]. split; [by exists e0|].
  intros j t' Hj Ht'. unfold precedes.
  destruct (Hmin j t' Hj Ht') as [Hlt|[Hle Hij]].
  - apply Z.leb_gt in Hlt. by left.
  - apply Z.leb_le in Hle.
    destruct (decide (Template.priority x = Template.priority t')); [by right|].
    left. lia.
Qed.

Lemma event_of_entry ts r e0 :
  event_of ts r = Some e0 ->
  SequenceEvent.timestamp e0 = LogEntry.timestamp r
  /\ SequenceEvent.log_entry e0 = Some r.
Proof.
  intros (i & t & _ & g & _ & Hb)%event_of_Some.
  apply build_event_Ok in Hb. tauto.
Qed.

(** The fields the enrichment leaves alone. *)
Lemma enriched_fields now events i e :
  SequenceEvent.timestamp (enriched now events i e) = SequenceEvent.timestamp e
  /\ SequenceEvent.from_entity (enriched now events i e) = SequenceEvent.from_entity e
  /\ SequenceEvent.to_entity (enriched now events i e) = SequenceEvent.to_entity e
  /\ SequenceEvent.message (enriched now events i e) = SequenceEvent.message e
  /\ SequenceEvent.event_type (enriched now events i e) = SequenceEvent.event_type e
  /\ SequenceEvent.log_entry (enriched now events i e) = SequenceEvent.log_entry e.
Proof. unfold enriched. by destruct (timing _ _ _ _). Qed.

Lemma enriched_metadata now events i e k :
  SequenceEvent.metadata (enriched now events i e) !! k =
  if decide (k = "time_since_previous") then
    match timing now events i e with
    | Some v => Some v
    | None => SequenceEvent.metadata e !! k
    end
  else if decide (k = "sequence_number") then Some (MInt (Z.of_nat i + 1))
  else SequenceEvent.metadata e !! k.
Proof.
  unfold enriched, numbered.
  destruct (decide (k = "time_since_previous")) as [->|Hk].
  { destruct (timing _ _ _ _); simpl; [by rewrite lookup_insert_eq|].
    by rewrite lookup_insert_ne. }
  destruct (decide (k = "sequence_number")) as [->|Hk'].
  { destruct (timing _ _ _ _); simpl;
      [rewrite lookup_insert_ne by done|]; by rewrite lookup_insert_eq. }
  destruct (timing _ _ _ _); simpl; by rewrite !lookup_insert_ne.
Qed.

(** Every event of a run is the enrichment of the event of a log entry. *)
Lemma generate_elem now logs ts evs i e :
  outcome (generate_sequence_events now logs ts) = Ok evs ->
  evs !! i = Some e ->
  exists e0 r,
    let sorted := sorted_by String.leb SequenceEvent.timestamp
                    (omap (event_of ts) logs) in
    sorted !! i = Some e0 /\ e = enriched now sorted i e0
    /\ r ∈ logs /\ event_of ts r = Some e0.
Proof.
  intros -> %generate_events. rewrite enrich_lookup.
  destruct (_ !! i) as [e0|] eqn:Hi; [|done]. intros [= <-].
  assert (e0 ∈ omap (event_of ts) logs) as (r & Hr & He)%list_elem_of_omap.
  { rewrite <- (sorted_by_perm String.leb SequenceEvent.timestamp).
    by eapply list_elem_of_lookup_2. }
  by exists e0, r.
Qed.

Lemma generate_timestamps now logs ts evs :
  outcome (generate_sequence_events now logs ts) = Ok evs ->
  SequenceEvent.timestamp <$> evs =
  SequenceEvent.timestamp <$>
    sorted_by String.leb SequenceEvent.timestamp (omap (event_of ts) logs).
Proof.
  intros -> %generate_events. rewrite enrich_imap, fmap_imap.
  rewrite <- imap_const. apply imap_ext. intros i e _. simpl.
  apply enriched_fields.
Qed.
End EventFacts.

Section Properties.
Context `{ReEngine}.

(** C1, amended.  Every event a run returns comes from a log record of
    the input, and its [event_type] is the name of the template that is
    first, under a stable ascending sort by priority, among the templates
    whose pattern is found in the message of the record by an unanchored
    search and whose event is built without an exception: a lower
    priority number wins whatever the input order, and at equal priority
    the template earlier in the input wins.  A template that matches but
    whose event cannot be built is passed over. *)
Theorem first_buildable_template_wins now logs ts :
  selects_first buildable now logs ts.
Proof.
  intros evs e Ho [i Hi]%list_elem_of_lookup_1.
  destruct (generate_elem now logs ts evs i e Ho Hi) as (e0 & r & _ & -> & Hr & He0).
  destruct (event_of_Some ts r e0 He0) as (j & t & Hfirst & g & Hm & Hb).
  apply build_event_Ok in Hb as (_ & Hty & Hle & _).
  exists r, j, t. split; [done|].
  destruct (enriched_fields now
              (sorted_by String.leb SequenceEvent.timestamp (omap (event_of ts) logs))
              i e0) as (_ & _ & _ & _ & -> & ->).
  done.
Qed.

(** C6, amended.  Every event a run returns carries in its metadata the
    keys [template_name] (the name of the matched template),
    [template_priority] (its priority), [log_level] (the value of the
    severity of the record), [log_tag] (the tag of the record) and
    [groups] (the tuple of the groups of the match): the groups are
    stored under [groups], not under [matched_groups]. *)
Theorem metadata_of_events now logs ts : carries_metadata "groups" now logs ts.
Proof.
  intros evs e Ho [i Hi]%list_elem_of_lookup_1.
  destruct (generate_elem now logs ts evs i e Ho Hi) as (e0 & r & _ & -> & Hr & He0).
  destruct (event_of_Some ts r e0 He0) as (j & t & (Hj & _) & g & Hm & Hb).
  apply build_event_Ok in Hb as (_ & _ & _ & _ & _ & _ & Hmeta).
  exists r, t, g. split; [done|]. split; [by eapply list_elem_of_lookup_2|].
  split; [done|]. rewrite !enriched_metadata, Hmeta; simpl.
  repeat split; by simplify_map_eq.
Qed.

(** The timing reads the time stamps only. *)
Lemma timing_timestamps now l1 l2 i e1 e2 :
  SequenceEvent.timestamp <$> l1 = SequenceEvent.timestamp <$> l2 ->
  SequenceEvent.timestamp e1 = SequenceEvent.timestamp e2 ->
  timing now l1 i e1 = timing now l2 i e2.
Proof.
  intros Hl He. destruct i as [|j]; [done|]. simpl. rewrite He.
  assert (SequenceEvent.timestamp <$> l1 !! j = SequenceEvent.timestamp <$> l2 !! j)
    as Hj by (by rewrite <- !list_lookup_fmap, Hl).
  destruct (l1 !! j), (l2 !! j); simplify_eq/=; [|done]. by rewrite Hj.
Qed.

(** C3, amended.  In the list a run returns, the event at index [i],
    counted from 0, has the [sequence_number] [i + 1]; under the key
    [time_since_previous] (not [time_since_previous_seconds]) every event
    but the first has the difference, in seconds, between its time stamp
    and the time stamp of the event just before it, both read by
    [_parse_timestamp] in the format [MM-DD HH:MM:SS.mmm] with the year
    of the clock, whenever both are read; when one of them is not, and
    for the first event, the key is absent. *)
Theorem numbering_and_timing now logs ts :
  enriches_under "time_since_previous" now logs ts.
Proof.
  intros evs i e Ho Hi.
  destruct (generate_elem now logs ts evs i e Ho Hi) as (e0 & r & _ & -> & Hr & He0).
  destruct (event_of_Some ts r e0 He0) as (j & t & _ & g & Hm & Hb).
  apply build_event_Ok in Hb as (_ & _ & _ & _ & _ & _ & Hmeta).
  rewrite !enriched_metadata; simpl. split; [done|].
  set (sorted := sorted_by _ _ _).
  rewrite (timing_timestamps now evs sorted i (enriched now sorted i e0) e0).
  - destruct (timing now sorted i e0); [done|]. rewrite Hmeta. by simplify_map_eq.
  - by apply (generate_timestamps now).
  - apply enriched_fields.
Qed.

(** The result of [sanitize] has no white space and nothing but letters,
    digits, underscores and hyphens. *)
Lemma sanitize_entity_chars u :
  all_chars Sanitization.entity_char (sanitize u) = true.
Proof.
  unfold sanitize, PyStr.sub_spaces, PyStr.strip.
  apply sub_spaces_from_entity, rstrip_all, lstrip_all, sub_special_kept.
Qed.

Lemma map_entity_valid mapping groups s :
  _map_entity mapping groups = Ok s -> Sanitization.valid_entity s.
Proof.
  intros [->|[u ->]]%map_entity_Ok; [done|].
  pose proof (sanitize_entity_chars u) as Hu. unfold or_unknown.
  destruct (sanitize u); done.
Qed.

(** C10.  In every event a run returns, [from_entity], [to_entity] and
    [message] are not empty and hold no white space and no character
    other than letters, digits, underscores and hyphens. *)
Theorem entities_are_identifiers now logs ts evs e :
  outcome (generate_sequence_events now logs ts) = Ok evs ->
  e ∈ evs ->
  Sanitization.valid_entity (SequenceEvent.from_entity e)
  /\ Sanitization.valid_entity (SequenceEvent.to_entity e)
  /\ Sanitization.valid_entity (SequenceEvent.message e).
Proof.
  intros Ho [i Hi]%list_elem_of_lookup_1.
  destruct (generate_elem now logs ts evs i e Ho Hi) as (e0 & r & _ & -> & Hr & He0).
  destruct (event_of_Some ts r e0 He0) as (j & t & _ & g & Hm & Hb).
  apply build_event_Ok in Hb as (_ & _ & _ & Hf & Ht & Hmsg & _).
  destruct (enriched_fields now
              (sorted_by String.leb SequenceEvent.timestamp (omap (event_of ts) logs))
              i e0) as (_ & -> & -> & -> & _).
  repeat split; eapply map_entity_valid; eassumption.
Qed.
End Properties.

(** ** Lists *)

Lemma StronglySorted_key {A K} (R : K -> K -> Prop) (key : A -> K) (l : list A) :
  StronglySorted (fun a b => R (key a) (key b)) l <-> StronglySorted R (key <$> l).
Proof.
  induction l as [|x l IH]; simpl.
  - split; constructor.
  - split; intros Hs; inversion_clear Hs as [|? ? Hl Hx]; constructor;
      try (by apply IH).
    + by rewrite Forall_fmap.
    + by rewrite Forall_fmap in Hx.
Qed.

Lemma filter_imap_fields {A K B} `{EqDecision K}
    (key : A -> K) (g : A -> B) (f : nat -> A -> A) (k : K) (l : list A) :
  (forall i x, key (f i x) = key x) ->
  (forall i x, g (f i x) = g x) ->
  g <$> filter (fun e => key e = k) (imap f l) = g <$> filter (fun e => key e = k) l.
Proof.
  revert f. induction l as [|x l IH]; intros f Hkey Hg; [done|].
  specialize (IH (f ∘ S) (fun i x => Hkey (S i) x) (fun i x => Hg (S i) x)).
  rewrite imap_cons, !filter_cons, Hkey.
  destruct (decide (key x = k)); csimpl; by rewrite ?Hg, IH.
Qed.

Lemma omap_filter_length {A B} (f : A -> option B) (l : list A) :
  length (omap f l) + length (filter (fun x => f x = None) l) = length l.
Proof.
  induction l as [|x l IH]; [done|]. rewrite filter_cons. csimpl.
  destruct (f x); simpl; lia.
Qed.

Section Properties2.
Context `{ReEngine}.

(** The run, spelled out. *)
Lemma generate_unfold now logs ts :
  generate_sequence_events now logs ts =
  let p := process_entries ts (mk_collected [] []) logs in
  match outcome p with
  | Ok c =>
      let evs := _enrich_events_with_metadata now
                   (sorted_by String.leb SequenceEvent.timestamp (sequence_events c)) in
      MkM (Ok evs)
          (Info_generating (length logs) (length ts)
           :: logged p
           ++ [Info_generated (length evs) (length (unmatched_entries c))])
  | Raise e => MkM (Raise e) (Info_generating (length logs) (length ts) :: logged p)
  end.
Proof.
  unfold generate_sequence_events, mbind, M_mbind, M_bind; simpl.
  destruct (outcome (process_entries _ _ _)); done.
Qed.

Lemma event_of_timestamp_filter ts k (logs : list LogEntry.t) :
  SequenceEvent.log_entry <$>
    filter (fun e => SequenceEvent.timestamp e = k) (omap (event_of ts) logs)
  = Some <$>
    filter (fun r => LogEntry.timestamp r = k /\ is_Some (event_of ts r)) logs.
Proof.
  induction logs as [|r logs IH]; [done|]. rewrite filter_cons. csimpl.
  destruct (event_of ts r) as [e0|] eqn:He0.
  - destruct (event_of_entry ts r e0 He0) as [Hts Hle].
    rewrite filter_cons, Hts.
    destruct (decide (LogEntry.timestamp r = k)).
    + rewrite decide_True by eauto. csimpl. by rewrite Hle, IH.
    + rewrite decide_False by tauto. done.
  - rewrite decide_False; [done|]. intros [_ []]. done.
Qed.

(** C2.  The list a run returns is sorted ascending by time stamp, the
    time stamps being compared as strings, and the sort is stable: for
    every time stamp [k], the log records of the events of time stamp
    [k], in the order of the output, are the log records of time stamp
    [k] of the input that yield an event, in the order of the input. *)
Theorem sorted_by_timestamp_and_stable now logs ts evs :
  outcome (generate_sequence_events now logs ts) = Ok evs ->
  StronglySorted
    (fun a b => PyStr.le (SequenceEvent.timestamp a) (SequenceEvent.timestamp b)) evs
  /\ forall k,
      SequenceEvent.log_entry <$> filter (fun e => SequenceEvent.timestamp e = k) evs
      = Some <$>
        filter (fun r => LogEntry.timestamp r = k /\ is_Some (event_of ts r)) logs.
Proof.
  intros Ho. split.
  - apply (proj2 (StronglySorted_key PyStr.le SequenceEvent.timestamp evs)).
    rewrite (generate_timestamps now logs ts evs Ho).
    apply (proj1 (StronglySorted_key PyStr.le SequenceEvent.timestamp _)).
    apply (sorted_by_sorted String.leb SequenceEvent.timestamp
             String.leb_total string_leb_trans).
  - intros k. apply generate_events in Ho as ->. rewrite enrich_imap.
    rewrite (filter_imap_fields SequenceEvent.timestamp SequenceEvent.log_entry).
    + rewrite (sorted_by_stable String.leb SequenceEvent.timestamp String.leb_total).
      apply event_of_timestamp_filter.
    + intros. apply enriched_fields.
    + intros. apply enriched_fields.
Qed.

(** C4, amended.  The Entity Mapper returns ["Unknown"] for the empty
    mapping, without substituting; otherwise its result is the
    substituted string without the characters that are not alphanumeric,
    underscore, white space or hyphen, then without leading and trailing
    white space, then with every run of white space collapsed into one
    underscore, and ["Unknown"] when this is empty.  The underscore is
    among the characters that stay. *)
Theorem entity_is_sanitized mapping groups :
  maps_entity_keeping Sanitization.allowed mapping groups.
Proof.
  split; [by intros ->|]. intros Hne s Hs.
  exists (or_unknown (sanitize s)). split.
  - unfold _map_entity. destruct mapping; [done|]. by rewrite Hs.
  - exists (PyStr.strip (PyStr.sub_special s)), (sanitize s).
    rewrite <- sub_special_strip_outside.
    split; [apply strip_Trimmed|]. split; [apply sub_spaces_Collapsed|done].
Qed.

(** On groups that all captured a string, the substitution is the one
    described: every [{groupN}] whose group exists is replaced by the
    value of the group, then the four aliases by the groups 1 to 4, or by
    the empty string where there is no such group; where nothing can be
    resolved the mapping comes back unchanged.  (For the groups that took
    no part in the match see [alias_of_unset_group_raises].) *)
Theorem placeholders_are_substituted mapping (gs : list string) :
  substitute mapping (Some <$> gs)
  = Ok (Substitution.resolve_aliases gs (Substitution.resolve_groups gs mapping))
  /\ (Substitution.nothing_to_resolve gs mapping ->
      substitute mapping (Some <$> gs) = Ok mapping)
  /\ substitute "{group1}_{group2}" (Some <$> ["CameraApp"; "open"])
     = Ok "CameraApp_open".
Proof.
  split; [apply substitute_resolve|]. split; [apply substitute_nothing|].
  vm_compute. reflexivity.
Qed.

Lemma match_templates_no_match r S :
  (forall t, t ∈ S -> no_match r t) -> outcome (match_templates r S) = Ok None.
Proof.
  induction S as [|t S IH]; intros HS; [done|].
  rewrite outcome_match_cons, (HS t) by left. apply IH. intros. apply HS. by right.
Qed.

Lemma event_of_no_match ts r :
  (forall t, t ∈ ts -> no_match r t) -> event_of ts r = None.
Proof.
  intros Hts. unfold event_of. rewrite match_templates_no_match; [done|].
  intros t Ht. apply Hts. revert Ht. unfold by_priority.
  by rewrite sorted_by_perm.
Qed.

(** C7.  When the patterns compile, a run returns a list and raises
    nothing; a record that no template matches is put in the list of the
    unmatched, which is counted in the last log message, and has no event
    in the result; every record is either the source of one event or
    unmatched; and when no record matches any template the result is
    empty. *)
Theorem unmatched_entries_are_dropped now logs ts :
  compilable ts ->
  exists evs c,
    outcome (generate_sequence_events now logs ts) = Ok evs
    /\ outcome (process_entries ts (mk_collected [] []) logs) = Ok c
    /\ (forall r, r ∈ logs -> (forall t, t ∈ ts -> no_match r t) ->
         r ∈ unmatched_entries c
         /\ forall e, e ∈ evs -> SequenceEvent.log_entry e <> Some r)
    /\ length evs + length (unmatched_entries c) = length logs
    /\ last (logged (generate_sequence_events now logs ts))
       = Some (Info_generated (length evs) (length (unmatched_entries c)))
    /\ ((forall r t, r ∈ logs -> t ∈ ts -> no_match r t) -> evs = []).
Proof.
  intros Hts.
  destruct (process_entries_total ts logs (mk_collected [] []) Hts) as [c Hc].
  destruct (process_entries_outcome ts logs _ c Hc) as [Hev Hun]. simpl in Hev, Hun.
  pose proof (generate_unfold now logs ts) as Hg. cbv zeta in Hg. rewrite Hc in Hg.
  eexists _, c. rewrite Hg. simpl. split; [reflexivity|]. split; [done|].
  rewrite Hev, Hun. repeat split.
  - apply list_elem_of_filter. split; [|done]. by apply event_of_no_match.
  - intros e [i Hi]%list_elem_of_lookup_1 Hle.
    rewrite enrich_lookup in Hi.
    destruct (_ !! i) as [e0|] eqn:Hi0; [|done]. injection Hi as <-.
    assert (e0 ∈ omap (event_of ts) logs) as (r' & _ & He)%list_elem_of_omap.
    { rewrite <- (sorted_by_perm String.leb SequenceEvent.timestamp).
      by eapply list_elem_of_lookup_2. }
    destruct (event_of_entry ts r' e0 He) as [_ Hle'].
    destruct (enriched_fields now
                (sorted_by String.leb SequenceEvent.timestamp (omap (event_of ts) logs))
                i e0) as (_ & _ & _ & _ & _ & Hl).
    rewrite Hl, Hle' in Hle. injection Hle as ->.
    rewrite event_of_no_match in He; done.
  - rewrite enrich_length.
    rewrite (Permutation_length (sorted_by_perm _ _ _)).
    apply omap_filter_length.
  - by rewrite app_comm_cons, last_snoc.
  - intros Hno.
    assert (omap (event_of ts) logs = []) as ->; [|done].
    clear -Hno. induction logs as [|r logs IH]; [done|]. csimpl.
    rewrite event_of_no_match.
    + apply IH. intros. apply Hno; [by right|done].
    + intros. apply Hno; [by left|done].
Qed.

(** C8, amended.  When building the event of a record from a template
    that matched raises, the exception is caught and logged, this
    template is passed over and the templates after it are tried for the
    same record; when none of the templates yields an event for the
    record, the run returns what it returns without the record: the
    other records are processed and the pass is not aborted. *)
Theorem failed_template_is_skipped now r t g x :
  matches r t g -> build_event r t g = Raise x ->
  (forall rest,
     outcome (match_templates r (t :: rest)) = outcome (match_templates r rest)
     /\ logged (match_templates r (t :: rest))
        = Error_creating x :: logged (match_templates r rest))
  /\ (forall ts before after,
       compilable ts -> (forall t', t' ∈ ts -> ~ buildable r t') ->
       exists evs,
         outcome (generate_sequence_events now (before ++ r :: after) ts) = Ok evs
         /\ outcome (generate_sequence_events now (before ++ after) ts) = Ok evs).
Proof.
  intros Hm Hb. split.
  - intros rest. rewrite outcome_match_cons, logged_match_cons.
    unfold matches in Hm. by rewrite Hm, Hb.
  - intros ts before after Hts Hno.
    destruct (generate_total now (before ++ r :: after) ts Hts) as [evs Ho].
    destruct (generate_total now (before ++ after) ts Hts) as [evs' Ho'].
    exists evs. split; [done|]. rewrite Ho'. f_equal.
    apply generate_events in Ho as ->. apply generate_events in Ho' as ->.
    rewrite !omap_app. csimpl.
    destruct (event_of ts r) as [e0|] eqn:He0; [|done].
    destruct (event_of_Some ts r e0 He0) as (i & t' & (Hi & Hbuild & _) & _).
    destruct (Hno t'); [by eapply list_elem_of_lookup_2|done].
Qed.

(** The enrichment reads the clock through its values only, and the
    timing is all that depends on them. *)
Lemma enrich_ext now1 now2 events :
  (forall k, now1 k = now2 k) ->
  _enrich_events_with_metadata now1 events = _enrich_events_with_metadata now2 events.
Proof.
  intros Hnow. rewrite !enrich_imap. apply imap_ext. intros i e _.
  unfold enriched, timing. destruct i as [|j]; [done|]. by rewrite !Hnow.
Qed.

Lemma without_timing_enriched now events i e :
  without_timing (enriched now events i e) = without_timing (numbered i e).
Proof.
  unfold enriched. destruct (timing _ _ _ _); [|done].
  unfold without_timing; simpl. by rewrite delete_insert_eq.
Qed.

Lemma enrich_without_timing now1 now2 events :
  without_timing <$> _enrich_events_with_metadata now1 events
  = without_timing <$> _enrich_events_with_metadata now2 events.
Proof.
  rewrite !enrich_imap, !fmap_imap. apply imap_ext. intros i e _. simpl.
  by rewrite !without_timing_enriched.
Qed.

(** C9, amended.  A run is a function of the log records, of the
    templates and of the calendar years the clock shows while the time
    stamps are parsed: two runs on the same arguments during which the
    clock shows the same years are identical; whatever the clock shows,
    they log the same messages and return lists that agree in length,
    in order and in every field and metadata entry but
    [time_since_previous]. *)
Theorem deterministic_given_the_year now1 now2 logs ts :
  ((forall k, now1 k = now2 k) ->
   generate_sequence_events now1 logs ts = generate_sequence_events now2 logs ts)
  /\ logged (generate_sequence_events now1 logs ts)
     = logged (generate_sequence_events now2 logs ts)
  /\ (forall evs1,
       outcome (generate_sequence_events now1 logs ts) = Ok evs1 ->
       exists evs2,
         outcome (generate_sequence_events now2 logs ts) = Ok evs2
         /\ without_timing <$> evs1 = without_timing <$> evs2).
Proof.
  rewrite !generate_unfold. cbv zeta.
  destruct (outcome (process_entries _ _ _)) as [c|e]; simpl.
  - split; [|split].
    + intros Hnow. by rewrite (enrich_ext now1 now2).
    + by rewrite !enrich_length.
    + intros evs1 [= <-]. eexists. split; [done|]. apply enrich_without_timing.
  - split; [done|]. split; [done|]. done.
Qed.
End Properties2.

(** ** The claims on the reference engine *)

Import Examples.

(** C1 as stated, the winner being the first template that matches, fails
    on the record ["b"] with the templates [A], of pattern ["(a)?b"] and
    priority 1, and [B], of pattern ["b"] and priority 2: [A] matches with
    a group that took no part, building its event raises, and the event of
    the record has the name of [B]. *)
Lemma first_match_does_not_always_win :
  ~ selects_first matched (in_year 2025) one_b [optional_group; plain].
Proof.
  destruct (outcome (generate_sequence_events (in_year 2025) one_b
                       [optional_group; plain])) as [evs|] eqn:Ho;
    [|vm_compute in Ho; discriminate].
  destruct evs as [|e evs]; [vm_compute in Ho; discriminate|].
  intros Hc.
  destruct (Hc (e :: evs) e Ho (list_elem_of_here e evs))
    as (r & i & t & Hr & _ & (Hi & _ & Hmin) & Hty).
  assert (matched r optional_group) as HA.
  { apply list_elem_of_singleton in Hr as ->. exists [None]. vm_compute. reflexivity. }
  vm_compute in Ho. injection Ho as <- <-. clear Hc. destruct i as [|[|i]].
  - injection Hi as <-. vm_compute in Hty. discriminate.
  - injection Hi as <-. specialize (Hmin 0 optional_group eq_refl HA).
    unfold precedes in Hmin. cbn in Hmin. lia.
  - cbn in Hi. discriminate.
Qed.

(** C3 as stated, with the key [time_since_previous_seconds], fails on three
    records half a second apart: both time stamps of the second event are
    parsed and the key is absent. *)
Lemma no_time_since_previous_seconds :
  ~ enriches_under "time_since_previous_seconds" (in_year 2025) three_x [high].
Proof.
  destruct (outcome (generate_sequence_events (in_year 2025) three_x [high]))
    as [evs|] eqn:Ho; [|vm_compute in Ho; discriminate].
  destruct evs as [|e0 [|e evs]]; [vm_compute in Ho; discriminate..|].
  intros Hc. destruct (Hc (e0 :: e :: evs) 1 e Ho eq_refl) as [_ Ht].
  vm_compute in Ho. injection Ho as <- <- <-.
  vm_compute in Ht. discriminate.
Qed.

(** C4 as stated, the underscore being stripped, fails on the mapping
    ["a_b"]: the Entity Mapper returns ["a_b"], not ["ab"]. *)
Lemma underscore_is_kept :
  ~ maps_entity_keeping Sanitization.allowed_without_underscore "a_b" [].
Proof.
  intros [_ Hc].
  destruct (Hc ltac:(done) "a_b" eq_refl) as (result & Hr & t & r & Ht & Hcol & ->).
  apply Trimmed_strip in Ht as ->. apply Collapsed_sub_spaces in Hcol as ->.
  vm_compute in Hr. discriminate.
Qed.

(** C6 as stated, with the key [matched_groups], fails on the record ["b"]
    and the template [B]: the event has no such key. *)
Lemma no_matched_groups_key :
  ~ carries_metadata "matched_groups" (in_year 2025) one_b [plain].
Proof.
  destruct (outcome (generate_sequence_events (in_year 2025) one_b [plain]))
    as [evs|] eqn:Ho; [|vm_compute in Ho; discriminate].
  destruct evs as [|e evs]; [vm_compute in Ho; discriminate|].
  intros Hc.
  destruct (Hc (e :: evs) e Ho (list_elem_of_here e evs))
    as (r & t & g & _ & _ & _ & _ & _ & _ & _ & Hg).
  vm_compute in Ho. injection Ho as <- <-.
  vm_compute in Hg. discriminate.
Qed.

(** C8 as stated, the record producing no event once building one raised,
    fails on the record ["b"] with the templates [A] and [B] above: the
    event of [A] cannot be built, and the result holds an event of the
    record, built from [B]. *)
Lemma failed_template_does_not_drop_the_entry :
  ~ failure_drops_entry (in_year 2025) one_b [optional_group; plain].
Proof.
  destruct (outcome (generate_sequence_events (in_year 2025) one_b
                       [optional_group; plain])) as [evs|] eqn:Ho;
    [|vm_compute in Ho; discriminate].
  destruct evs as [|e evs]; [vm_compute in Ho; discriminate|].
  intros Hc.
  apply (Hc (e :: evs) (entry "09-17 10:30:15.000" "b") optional_group Ho)
    with (e := e).
  - apply list_elem_of_here.
  - apply list_elem_of_here.
  - exists [None], TypeError. split; vm_compute; reflexivity.
  - apply list_elem_of_here.
  - vm_compute in Ho. injection Ho as <- <-. reflexivity.
Qed.

(** C9 as stated, the result not depending on any external state, fails on
    two records dated 02-28 and 03-01: their distance is two days when the
    clock shows 2024 and one day when it shows 2025. *)
Lemma result_depends_on_the_year :
  ~ independent_of_clock around_leap_day [high].
Proof.
  intros Hc. specialize (Hc (in_year 2024) (in_year 2025)).
  apply (f_equal (fun m : M (list SequenceEvent.t) =>
           match outcome m return option MetaValue with
           | Ok evs =>
               match evs !! 1 with
               | Some e => SequenceEvent.metadata e !! "time_since_previous"
               | None => None
               end
           | Raise _ => None
           end)) in Hc.
  vm_compute in Hc. discriminate.
Qed.

(** ** The examples of the description *)

Example P1_earlier_template_wins_a_tie :
  project SequenceEvent.event_type
    (generate_sequence_events (in_year 2025) [entry "09-17 10:30:15.000" "x"]
       [first_any; second_any]) = Some ["A"].
Proof. vm_compute. reflexivity. Qed.

Example P2_priority_overrides_input_order :
  project SequenceEvent.event_type
    (generate_sequence_events (in_year 2025) [entry "09-17 10:30:15.000" "x"]
       [low; high]) = Some ["High"].
Proof. vm_compute. reflexivity. Qed.

Example P3_no_match_is_dropped :
  generate_sequence_events (in_year 2025) [entry "09-17 10:30:15.000" "abc"]
    [unmatchable]
  = MkM (Ok []) [Info_generating 1 1; Debug_no_match "abc"; Info_generated 0 1].
Proof. vm_compute. reflexivity. Qed.

Example P4_events_are_reordered :
  project SequenceEvent.timestamp
    (generate_sequence_events (in_year 2025)
       [entry "09-17 10:30:16.000" "x"; entry "09-17 10:30:15.000" "x"] [high])
  = Some ["09-17 10:30:15.000"; "09-17 10:30:16.000"].
Proof. vm_compute. reflexivity. Qed.

Example P6_sanitization : _map_entity "Camera Service!!" [] = Ok "Camera_Service".
Proof. vm_compute. reflexivity. Qed.

Example P7_empty_mapping : _map_entity "" [] = Ok "Unknown".
Proof. reflexivity. Qed.

Example P9_enrichment_fields :
  project (fun e => (SequenceEvent.metadata e !! "sequence_number",
                     SequenceEvent.metadata e !! "time_since_previous"))
    (generate_sequence_events (in_year 2025) three_x [high])
  = Some [(Some (MInt 1), None);
          (Some (MInt 2), Some (MSeconds 500000));
          (Some (MInt 3), Some (MSeconds 500000))].
Proof. vm_compute. reflexivity. Qed.

Example unset_group_raises : _map_entity "Unknown" [None] = Raise TypeError.
Proof. vm_compute. reflexivity. Qed.

Example out_of_range_placeholder_stays :
  substitute "{group1}-{group3}" [Some "a"; Some "b"] = Ok "a-{group3}".
Proof. vm_compute. reflexivity. Qed.

(** ** The properties at concrete inputs *)

Lemma compilable_examples : compilable [optional_group; plain; low; high].
Proof.
  intros t Ht. repeat (apply elem_of_cons in Ht as [->|Ht]); [..|by apply elem_of_nil in Ht];
    vm_compute; eexists; reflexivity.
Defined.

(** Names the result [evs] of the closed call of the generator in the goal,
    with the equation [Ho] of its outcome. *)
Ltac name_run evs Ho :=
  match goal with
  | |- context [outcome (generate_sequence_events ?now ?logs ?ts)] =>
      destruct (outcome (generate_sequence_events now logs ts)) as [evs|] eqn:Ho;
      [|vm_compute in Ho; discriminate]
  end.

Lemma first_buildable_template_wins_witness :
  exists evs e,
    outcome (generate_sequence_events (in_year 2025) one_b [optional_group; plain])
    = Ok evs
    /\ e ∈ evs
    /\ exists r i t,
        r ∈ one_b /\ SequenceEvent.log_entry e = Some r
        /\ first_among (buildable r) [optional_group; plain] i t
        /\ SequenceEvent.event_type e = Template.name t.
Proof.
  name_run evs Ho. destruct evs as [|e evs]; [vm_compute in Ho; discriminate|].
  exists (e :: evs), e. split; [reflexivity|]. split; [apply list_elem_of_here|].
  exact (first_buildable_template_wins (in_year 2025) one_b [optional_group; plain]
           (e :: evs) e Ho (list_elem_of_here e evs)).
Defined.

Lemma sorted_by_timestamp_and_stable_witness :
  exists evs,
    outcome (generate_sequence_events (in_year 2025) three_x [high]) = Ok evs
    /\ StronglySorted
         (fun a b => PyStr.le (SequenceEvent.timestamp a) (SequenceEvent.timestamp b))
         evs
    /\ forall k,
        SequenceEvent.log_entry <$> filter (fun e => SequenceEvent.timestamp e = k) evs
        = Some <$>
          filter (fun r => LogEntry.timestamp r = k /\ is_Some (event_of [high] r))
                 three_x.
Proof.
  name_run evs Ho. exists evs. split; [reflexivity|].
  exact (sorted_by_timestamp_and_stable (in_year 2025) three_x [high] evs Ho).
Defined.

Lemma numbering_and_timing_witness :
  exists evs e,
    outcome (generate_sequence_events (in_year 2025) three_x [high]) = Ok evs
    /\ evs !! 1 = Some e
    /\ SequenceEvent.metadata e !! "sequence_number" = Some (MInt (Z.of_nat 1 + 1))
    /\ SequenceEvent.metadata e !! "time_since_previous"
       = timing (in_year 2025) evs 1 e.
Proof.
  name_run evs Ho. destruct (evs !! 1) as [e|] eqn:He.
  - exists evs, e. split; [reflexivity|]. split; [exact He|].
    exact (numbering_and_timing (in_year 2025) three_x [high] evs 1 e Ho He).
  - apply generate_events in Ho. subst evs. vm_compute in He. discriminate.
Defined.

Lemma entity_is_sanitized_witness :
  exists result,
    _map_entity "Camera Service!!" [] = Ok result
    /\ sanitized_keeping Sanitization.allowed "Camera Service!!" result.
Proof.
  destruct (entity_is_sanitized "Camera Service!!" []) as [_ Hs].
  apply Hs; [discriminate|vm_compute; reflexivity].
Defined.

Lemma placeholders_are_substituted_witness :
  Substitution.nothing_to_resolve ["a"; "b"] "x{group3}"
  /\ substitute "x{group3}" (Some <$> ["a"; "b"]) = Ok "x{group3}".
Proof.
  assert (Substitution.nothing_to_resolve ["a"; "b"] "x{group3}") as Hn.
  { split; [|repeat split; vm_compute; reflexivity].
    intros N HN. simpl in HN.
    assert (N = 1 \/ N = 2) as [->| ->] by lia; vm_compute; reflexivity. }
  split; [exact Hn|].
  exact (proj1 (proj2 (placeholders_are_substituted "x{group3}" ["a"; "b"])) Hn).
Defined.

Lemma metadata_of_events_witness :
  exists evs e,
    outcome (generate_sequence_events (in_year 2025) one_b [plain]) = Ok evs
    /\ e ∈ evs
    /\ exists r t g,
        r ∈ one_b /\ t ∈ [plain] /\ matches r t g
        /\ SequenceEvent.metadata e !! "template_name" = Some (MStr (Template.name t))
        /\ SequenceEvent.metadata e !! "template_priority"
           = Some (MInt (Template.priority t))
        /\ SequenceEvent.metadata e !! "log_level"
           = Some (MStr (LogLevel_value (LogEntry.level r)))
        /\ SequenceEvent.metadata e !! "log_tag" = Some (MStr (LogEntry.tag r))
        /\ SequenceEvent.metadata e !! "groups" = Some (MGroups g).
Proof.
  name_run evs Ho. destruct evs as [|e evs]; [vm_compute in Ho; discriminate|].
  exists (e :: evs), e. split; [reflexivity|]. split; [apply list_elem_of_here|].
  exact (metadata_of_events (in_year 2025) one_b [plain] (e :: evs) e Ho
           (list_elem_of_here e evs)).
Defined.

Lemma unmatched_entries_are_dropped_witness :
  compilable [unmatchable]
  /\ exists evs c,
      outcome (generate_sequence_events (in_year 2025)
                 [entry "09-17 10:30:15.000" "abc"] [unmatchable]) = Ok evs
      /\ outcome (process_entries [unmatchable] (mk_collected [] [])
                    [entry "09-17 10:30:15.000" "abc"]) = Ok c
      /\ (forall r, r ∈ [entry "09-17 10:30:15.000" "abc"] ->
           (forall t, t ∈ [unmatchable] -> no_match r t) ->
           r ∈ unmatched_entries c
           /\ forall e, e ∈ evs -> SequenceEvent.log_entry e <> Some r)
      /\ length evs + length (unmatched_entries c)
         = length [entry "09-17 10:30:15.000" "abc"]
      /\ last (logged (generate_sequence_events (in_year 2025)
                         [entry "09-17 10:30:15.000" "abc"] [unmatchable]))
         = Some (Info_generated (length evs) (length (unmatched_entries c)))
      /\ ((forall r t, r ∈ [entry "09-17 10:30:15.000" "abc"] ->
            t ∈ [unmatchable] -> no_match r t) -> evs = []).
Proof.
  assert (compilable [unmatchable]) as Hc.
  { intros t Ht. apply list_elem_of_singleton in Ht. subst t.
    vm_compute. eexists. reflexivity. }
  split; [exact Hc|].
  exact (unmatched_entries_are_dropped (in_year 2025)
           [entry "09-17 10:30:15.000" "abc"] [unmatchable] Hc).
Defined.

Lemma failed_template_is_skipped_witness :
  matches (entry "09-17 10:30:15.000" "b") optional_group [None]
  /\ build_event (entry "09-17 10:30:15.000" "b") optional_group [None]
     = Raise TypeError
  /\ outcome (match_templates (entry "09-17 10:30:15.000" "b") [optional_group; plain])
     = outcome (match_templates (entry "09-17 10:30:15.000" "b") [plain])
  /\ logged (match_templates (entry "09-17 10:30:15.000" "b") [optional_group; plain])
     = Error_creating TypeError
       :: logged (match_templates (entry "09-17 10:30:15.000" "b") [plain]).
Proof.
  assert (matches (entry "09-17 10:30:15.000" "b") optional_group [None]) as Hm
    by (vm_compute; reflexivity).
  assert (build_event (entry "09-17 10:30:15.000" "b") optional_group [None]
          = Raise TypeError) as Hb by (vm_compute; reflexivity).
  split; [exact Hm|]. split; [exact Hb|].
  exact (proj1 (failed_template_is_skipped (in_year 2025) _ _ _ _ Hm Hb) [plain]).
Defined.

Lemma deterministic_given_the_year_witness :
  exists evs1 evs2,
    outcome (generate_sequence_events (in_year 2024) around_leap_day [high]) = Ok evs1
    /\ outcome (generate_sequence_events (in_year 2025) around_leap_day [high]) = Ok evs2
    /\ without_timing <$> evs1 = without_timing <$> evs2.
Proof.
  destruct (outcome (generate_sequence_events (in_year 2024) around_leap_day [high]))
    as [evs1|] eqn:Ho; [|vm_compute in Ho; discriminate].
  destruct (proj2 (proj2 (deterministic_given_the_year (in_year 2024) (in_year 2025)
                            around_leap_day [high])) evs1 Ho) as (evs2 & Ho2 & Heq).
  exists evs1, evs2. split; [reflexivity|]. split; [exact Ho2|exact Heq].
Defined.

Lemma entities_are_identifiers_witness :
  exists evs e,
    outcome (generate_sequence_events (in_year 2025) one_b [plain]) = Ok evs
    /\ e ∈ evs
    /\ Sanitization.valid_entity (SequenceEvent.from_entity e)
    /\ Sanitization.valid_entity (SequenceEvent.to_entity e)
    /\ Sanitization.valid_entity (SequenceEvent.message e).
Proof.
  name_run evs Ho. destruct evs as [|e evs]; [vm_compute in Ho; discriminate|].
  exists (e :: evs), e. split; [reflexivity|]. split; [apply list_elem_of_here|].
  exact (entities_are_identifiers (in_year 2025) one_b [plain] (e :: evs) e Ho
           (list_elem_of_here e evs)).
Defined.

(** C5, a defect of the code.  A group that took no part in the match is
    [None] in [match.groups()]: the pattern ["(a)?b"] on ["b"] gives
    [(None,)].  The loop over [{groupN}] turns such a group into a string
    with [str(group)]; the replacement of the aliases passes it to
    [str.replace] as it is, which raises [TypeError] whether or not the
    alias occurs, so that [_map_entity] raises on every mapping that is not
    empty. *)
Theorem alias_of_unset_group_raises :
  re_search (H := MiniRe.engine) "(a)?b" "b" = Ok (Some [None])
  /\ replace_groups 0 [None] "{group1}" = "None"
  /\ substitute "{timestamp}" [None] = Raise TypeError
  /\ _map_entity "Unknown" [None] = Raise TypeError.
Proof. repeat split; vm_compute; reflexivity. Qed.

Example parse_timestamp_accepts_the_format :
  _parse_timestamp 2025 "09-17 10:30:15.123"
  = Some (DateTime.mk 2025 9 17 10 30 15 123000).
Proof. vm_compute. reflexivity. Qed.

Example parse_timestamp_wants_the_end :
  _parse_timestamp 2025 "09-17 10:30:15.123 " = None.
Proof. vm_compute. reflexivity. Qed.

Example parse_timestamp_leap_day :
  _parse_timestamp 2025 "02-29 10:00:00.000" = None
  /\ _parse_timestamp 2024 "02-29 10:00:00.000"
     = Some (DateTime.mk 2024 2 29 10 0 0 0).
Proof. split; vm_compute; reflexivity. Qed.

Example parse_timestamp_second_60 :
  _parse_timestamp 2025 "09-17 10:30:60.000" = None.
Proof. vm_compute. reflexivity. Qed.

Example toordinal_2024_03_01 :
  DateTime.toordinal (DateTime.mk 2024 3 1 0 0 0 0) = 738946%Z.
Proof. vm_compute. reflexivity. Qed.
